(** * Withdrawal webhook relay: a model of the three handler variants

    The repository holds one small service in three versions: a webhook
    receiver that filters withdrawal events, decodes them, formats a chat
    message and posts it to the Telegram Bot API.  The versions differ only
    in the deduplication backend: none, a process-local [Set] trimmed on a
    timer, and an Upstash Redis store with a 900 second expiry.

    JavaScript values are modelled by the types the data model gives them:
    strings are sequences of code units below 256, the integer fields
    [timestamp] and [fee] are [Z], [tokenAmount] is a binary64 number, a
    field that is absent ([undefined]) is [None].  Exceptions, the console,
    the network and the stores are explicit: every handler is a function
    from a state to a completion, a new state and the list of actions it
    performed. *)

From Stdlib Require Import ZArith Floats String Ascii List Lia.
From stdpp Require Import base gmap strings list.

#[local] Set Warnings "-inexact-float".

Local Open Scope Z_scope.

(** ** Strings *)

(** The double quote, which the message template needs inside a string. *)
Definition dquote : string := String (ascii_of_nat 34) EmptyString.

(** The line feed of the template literals. *)
Definition nl : string := String (ascii_of_nat 10) EmptyString.

(** [String.prototype.slice(0, n)]: the first [n] code units, or the whole
    string when it is shorter. *)
Definition slice0 (n : nat) (s : string) : string := substring 0 n s.

(** One code unit of [String.prototype.toLowerCase]: the upper-case letters
    of Latin-1 are A-Z and U+00C0-U+00DE without the multiplication sign. *)
Definition lower_unit (c : ascii) : ascii :=
  let n := nat_of_ascii c in
  if ((65 <=? n) && (n <=? 90))%nat then ascii_of_nat (n + 32)
  else if ((192 <=? n) && (n <=? 222) && negb (n =? 215))%nat
       then ascii_of_nat (n + 32)
       else c.

Fixpoint toLowerCase (s : string) : string :=
  match s with
  | EmptyString => EmptyString
  | String c rest => String (lower_unit c) (toLowerCase rest)
  end.

(** [s.includes(needle)]: [needle] occurs in [s] at some position. *)
Fixpoint includes (needle s : string) : bool :=
  String.prefix needle s ||
  match s with
  | EmptyString => false
  | String _ rest => includes needle rest
  end.

(** A string or [undefined] inside a template literal. *)
Definition interpolate (o : option string) : string := default "undefined" o.

(** [x || fallback] for a string field: [undefined] and the empty string
    are falsy. *)
Definition or_else (o : option string) (fallback : string) : string :=
  match o with
  | Some s => if String.eqb s "" then fallback else s
  | None => fallback
  end.

(** ** Numbers *)

(** The binary64 value of an integer literal: the nearest double. *)
Definition Z2Num (z : Z) : float := SF2Prim (binary_normalize 53 1024 z 0 false).

(** The literal [1e9]. *)
Definition LAMPORTS_PER_SOL : float := 1e9%float.

(** [event.fee / 1e9]: [undefined / 1e9] is [NaN]. *)
Definition fee_in_sol (fee : option Z) : float :=
  match fee with
  | Some f => PrimFloat.div (Z2Num f) LAMPORTS_PER_SOL
  | None => PrimFloat.nan
  end.

(** ** Exceptions *)

Inductive JsError :=
| TypeError (message : string)
| RangeError (message : string)
| NetworkError (message : string).

Inductive Completion (A : Type) :=
| Normal (value : A)
| Throw (error : JsError).
Arguments Normal {A} value.
Arguments Throw {A} error.

Definition error_message (e : JsError) : string :=
  match e with
  | TypeError m | RangeError m | NetworkError m => m
  end.

(** ** Dates *)

(** The largest time value of a [Date], in milliseconds either side of the
    epoch. *)
Definition MAX_TIME_VALUE : Z := 8640000000000000.

(** [new Date(event.timestamp * 1000)]: the time value, or [None] for an
    invalid date ([undefined * 1000] is [NaN]; a product out of range is
    clipped to [NaN]).  The product of an integer in range and 1000 is
    exact in binary64. *)
Definition newDate (timestamp : option Z) : option Z :=
  match timestamp with
  | Some ts =>
      let tv := ts * 1000 in
      if Z.abs tv <=? MAX_TIME_VALUE then Some tv else None
  | None => None
  end.

Definition digit (n : Z) : ascii := ascii_of_nat (48 + Z.to_nat (n mod 10)).

Definition pad2 (n : Z) : string :=
  String (digit (n / 10)) (String (digit n) "").
Definition pad3 (n : Z) : string :=
  String (digit (n / 100)) (pad2 n).
Definition pad4 (n : Z) : string :=
  String (digit (n / 1000)) (pad3 n).
Definition pad6 (n : Z) : string :=
  String (digit (n / 100000)) (String (digit (n / 10000)) (pad4 n)).

(** Year, month and day of a day number counted from 1970-01-01, in the
    proleptic Gregorian calendar (eras of 400 years starting on 1 March). *)
Definition civil_from_days (days : Z) : Z * Z * Z :=
  let z := days + 719468 in
  let era := z / 146097 in
  let doe := z - era * 146097 in
  let yoe := (doe - doe / 1460 + doe / 36524 - doe / 146096) / 365 in
  let doy := doe - (365 * yoe + yoe / 4 - yoe / 100) in
  let mp := (5 * doy + 2) / 153 in
  let d := doy - (153 * mp + 2) / 5 + 1 in
  let m := if mp <? 10 then mp + 3 else mp - 9 in
  let y := yoe + era * 400 + (if m <=? 2 then 1 else 0) in
  (y, m, d).

Definition iso_year (y : Z) : string :=
  if (0 <=? y) && (y <=? 9999) then pad4 y
  else (if y <? 0 then "-" else "+") +:+ pad6 (Z.abs y).

(** The text [Date.prototype.toISOString] gives for a valid time value. *)
Definition iso_string (tv : Z) : string :=
  let days := tv / 86400000 in
  let ms := tv mod 86400000 in
  let '(y, m, d) := civil_from_days days in
  iso_year y +:+ "-" +:+ pad2 m +:+ "-" +:+ pad2 d +:+ "T" +:+
  pad2 (ms / 3600000) +:+ ":" +:+ pad2 (ms / 60000 mod 60) +:+ ":" +:+
  pad2 (ms / 1000 mod 60) +:+ "." +:+ pad3 (ms mod 1000) +:+ "Z".

Definition is_digit (c : ascii) : bool :=
  let n := nat_of_ascii c in ((48 <=? n) && (n <=? 57))%nat.

(** [s] follows [pattern], where the letter d of the pattern stands for
    any decimal digit and every other character for itself. *)
Fixpoint follows (pattern s : string) : bool :=
  match pattern, s with
  | EmptyString, EmptyString => true
  | String p pattern', String c s' =>
      (if Ascii.eqb p "d" then is_digit c else Ascii.eqb p c) && follows pattern' s'
  | _, _ => false
  end.

(** The ISO 8601 extended format in UTC, with four-digit years or signed
    six-digit years. *)
Definition iso_shape (s : string) : bool :=
  follows "dddd-dd-ddTdd:dd:dd.dddZ" s ||
  follows "+dddddd-dd-ddTdd:dd:dd.dddZ" s ||
  follows "-dddddd-dd-ddTdd:dd:dd.dddZ" s.

(** [date.toISOString()] throws a [RangeError] on an invalid date. *)
Definition toISOString (date : option Z) : Completion string :=
  match date with
  | Some tv => Normal (iso_string tv)
  | None => Throw (RangeError "Invalid time value")
  end.

(** ** The known-token table *)

(** A value read from [KNOWN_TOKENS]: one of its own strings, or a member
    that the object literal inherits from [Object.prototype]. *)
Inductive JsValue :=
| VString (s : string)
| VInherited (name : string).

Definition KNOWN_TOKENS : gmap string string :=
  <["EPjFWdd5AufqSSqeM2qN1xzybapC8G4wEGGkZwyTDt1v" := "USDC"]>
  (<["2b1kV6DkPAnxd5ixfnxCpjxmKwqjjaYmCZfHsFu24GXo" := "PYUSD"]>
  (<["38wQFRuj6FezzGYegzHdqrRK7hkEkBx7wSqxDBYXpKpy" := "kPUSD-USDC"]> ∅)).

(** The property names every object literal inherits. *)
Definition OBJECT_PROTOTYPE : list string :=
  [ "constructor"; "hasOwnProperty"; "isPrototypeOf"; "propertyIsEnumerable";
    "toLocaleString"; "toString"; "valueOf"; "__proto__";
    "__defineGetter__"; "__defineSetter__"; "__lookupGetter__";
    "__lookupSetter__" ].

(** [table[key]]: an own property first, then the prototype; [None] is
    [undefined].  The key is converted to a string. *)
Definition get_property (table : gmap string string) (key : option string)
  : option JsValue :=
  let k := interpolate key in
  match table !! k with
  | Some s => Some (VString s)
  | None => if bool_decide (k ∈ OBJECT_PROTOTYPE) then Some (VInherited k) else None
  end.

(** Truthiness: the empty string is falsy, functions and objects are not. *)
Definition truthy (v : JsValue) : bool :=
  match v with
  | VString s => negb (String.eqb s "")
  | VInherited _ => true
  end.

(** A value inside a template literal: a function prints its source, the
    prototype object prints as any plain object. *)
Definition value_to_string (v : JsValue) : string :=
  match v with
  | VString s => s
  | VInherited name =>
      if String.eqb name "__proto__" then "[object Object]"
      else "function " +:+
           (if String.eqb name "constructor" then "Object" else name) +:+
           "() { [native code] }"
  end.

(** ** The data model *)

Module Transfer.
Record t := {
  fromUserAccount : option string;
  toUserAccount : option string;
  mint : option string;
  tokenAmount : option float
}.
End Transfer.

Module Event.
Record t := {
  signature : option string;
  timestamp : option Z;
  type : option string;
  description : option string;
  source : option string;
  fee : option Z;
  tokenTransfers : option (list Transfer.t)
}.
End Event.

Module Withdrawal.
Record t := {
  from : option string;
  to : option string;
  token : JsValue;
  amount : option float;
  mint : option string
}.
End Withdrawal.

Module Decoded.
Record t := {
  signature : option string;
  timestamp : string;
  type : string;
  source : string;
  withdrawal : option Withdrawal.t;
  fee : float
}.
End Decoded.

(** ** The decoder *)

(** [KNOWN_TOKENS[transfer.mint] || `${transfer.mint.slice(0, 8)}...`]:
    the right operand is evaluated only when the left one is falsy, and
    reading [slice] off an absent mint throws. *)
Definition tokenSymbol (mint : option string) : Completion JsValue :=
  match get_property KNOWN_TOKENS mint with
  | Some v =>
      if truthy v then Normal v
      else match mint with
           | Some m => Normal (VString (slice0 8 m +:+ "..."))
           | None => Throw (TypeError "Cannot read properties of undefined (reading 'slice')")
           end
  | None =>
      match mint with
      | Some m => Normal (VString (slice0 8 m +:+ "..."))
      | None => Throw (TypeError "Cannot read properties of undefined (reading 'slice')")
      end
  end.

(** The [if (tokenTransfers.length > 0)] block. *)
Definition decodeWithdrawal (tokenTransfers : list Transfer.t)
  : Completion (option Withdrawal.t) :=
  match tokenTransfers with
  | [] => Normal None
  | transfer :: _ =>
      match tokenSymbol (Transfer.mint transfer) with
      | Normal sym =>
          Normal (Some {| Withdrawal.from := Transfer.fromUserAccount transfer;
                          Withdrawal.to := Transfer.toUserAccount transfer;
                          Withdrawal.token := sym;
                          Withdrawal.amount := Transfer.tokenAmount transfer;
                          Withdrawal.mint := Transfer.mint transfer |})
      | Throw e => Throw e
      end
  end.

Definition decodeWebhookEvent (event : Event.t) : Completion Decoded.t :=
  match toISOString (newDate (Event.timestamp event)) with
  | Throw e => Throw e
  | Normal timestamp =>
      let type := or_else (Event.type event) "UNKNOWN" in
      let source := or_else (Event.source event) "Unknown" in
      let tokenTransfers := default [] (Event.tokenTransfers event) in
      match decodeWithdrawal tokenTransfers with
      | Throw e => Throw e
      | Normal withdrawal =>
          Normal {| Decoded.signature := Event.signature event;
                    Decoded.timestamp := timestamp;
                    Decoded.type := type;
                    Decoded.source := source;
                    Decoded.withdrawal := withdrawal;
                    Decoded.fee := fee_in_sol (Event.fee event) |}
      end
  end.

(** The event with another list of transfers. *)
Definition with_transfers (event : Event.t) (tokenTransfers : option (list Transfer.t)) : Event.t :=
  {| Event.signature := Event.signature event;
     Event.timestamp := Event.timestamp event;
     Event.type := Event.type event;
     Event.description := Event.description event;
     Event.source := Event.source event;
     Event.fee := Event.fee event;
     Event.tokenTransfers := tokenTransfers |}.

(** ** Effects

    A handler runs on its own from the request to its last statement; the
    points where it awaits the network are the calls below.  What the
    network answers is given by two oracles indexed by the number of calls
    made so far. *)

Record ApiResult := { ok : bool; api_description : option string }.

(** The outcome of [fetch] followed by [response.json()]. *)
Inductive FetchOutcome :=
| Rejects (error : JsError)
| Resolves (result : ApiResult).

Record Ack := { received : bool }.

(** The request body: one event object or an array of them. *)
Inductive Payload :=
| Single (event : Event.t)
| Batch (events : list Event.t).

(** [Array.isArray(payload) ? payload : [payload]]. *)
Definition events_of (payload : Payload) : list Event.t :=
  match payload with
  | Single event => [event]
  | Batch events => events
  end.

Inductive Action :=
| ConsoleLog (line : string)
| ConsoleLogTime
| ConsoleLogJson (payload : Payload)
| ConsoleError (line : string)
| SetAdd (signature : option string)
| RedisGet (key : string)
| RedisSet (key value : string) (ex : Z)
| CallDecode (event : Event.t)
| CallFormat (decoded : Decoded.t)
| Fetch (url : string) (chat_id : option string) (text : string)
| Respond (status : Z) (body : Ack).

(** Each action is recorded with the part of the handler that performed
    it: the request as a whole, or the loop iteration of one event, named
    by the event's signature. *)
Inductive Scope :=
| OfRequest
| OfEvent (signature : option string).

Definition Entry : Type := Scope * Action.

Record State (D : Type) := mkState {
  store : D;
  fetches : nat;
  redis_calls : nat
}.
Arguments mkState {D} store fetches redis_calls.
Arguments store {D} s.
Arguments fetches {D} s.
Arguments redis_calls {D} s.

Definition M (D A : Type) : Type := State D -> Completion A * State D * list Entry.

Definition ret {D A} (a : A) : M D A := fun st => (Normal a, st, []).

Definition bind {D A B} (m : M D A) (f : A -> M D B) : M D B :=
  fun st =>
    match m st with
    | (Normal a, st1, t1) =>
        let '(r, st2, t2) := f a st1 in (r, st2, t1 ++ t2)
    | (Throw e, st1, t1) => (Throw e, st1, t1)
    end.

Notation "x <- m ;; k" := (bind m (fun x => k))
  (at level 100, m at next level, right associativity).
Notation "m ;; k" := (bind m (fun _ => k))
  (at level 100, right associativity).

Definition throw {D A} (e : JsError) : M D A := fun st => (Throw e, st, []).

(** A pure computation that may throw. *)
Definition lift {D A} (c : Completion A) : M D A := fun st => (c, st, []).

(** [try { m } catch (error) { handler }]. *)
Definition try_catch {D A} (m : M D A) (handler : JsError -> M D A) : M D A :=
  fun st =>
    match m st with
    | (Normal a, st1, t1) => (Normal a, st1, t1)
    | (Throw e, st1, t1) =>
        let '(r, st2, t2) := handler e st1 in (r, st2, t1 ++ t2)
    end.

Definition act {D} (a : Action) : M D unit := fun st => (Normal tt, st, [(OfRequest, a)]).

Definition in_scope {D A} (sc : Scope) (m : M D A) : M D A :=
  fun st => let '(r, st1, t) := m st in (r, st1, map (fun e => (sc, e.2)) t).

Definition get_store {D} : M D D := fun st => (Normal (store st), st, []).

Definition put_store {D} (s : D) : M D unit :=
  fun st => (Normal tt, mkState s (fetches st) (redis_calls st), []).

(** [for (const event of events) { body }]. *)
Fixpoint for_of {D} (events : list Event.t) (body : Event.t -> M D unit) : M D unit :=
  match events with
  | [] => ret tt
  | event :: rest =>
      in_scope (OfEvent (Event.signature event)) (body event) ;;
      for_of rest body
  end.

(** The withdrawal filter of all three handlers, on the lower-cased
    [type] and [description]. *)
Definition lowered (field : option string) : string := toLowerCase (or_else field "").

Definition is_withdrawal (event : Event.t) : bool :=
  includes "withdraw" (lowered (Event.type event)) ||
  includes "withdraw" (lowered (Event.description event)).

(** ** The in-memory set and its periodic clean-up *)

(** A JavaScript [Set] keeps its members in insertion order; adding a
    member that is present changes nothing. *)
Definition set_has (x : option string) (s : list (option string)) : bool :=
  bool_decide (x ∈ s).

Definition set_add (x : option string) (s : list (option string)) : list (option string) :=
  if set_has x s then s else s ++ [x].

Definition MAX_CACHE_SIZE : nat := 1000.

(** The period given to [setInterval], in milliseconds. *)
Definition CLEANUP_INTERVAL_MS : Z := 300000.

(** [array.slice(-n)]: the last [n] elements, all of them when there are
    fewer. *)
Definition slice_last {A} (n : nat) (l : list A) : list A :=
  drop (length l - n) l.

(** The callback of [setInterval]: copy the last [MAX_CACHE_SIZE] members,
    clear the set, add the copies back one by one. *)
Definition cleanup (processedTransactions : list (option string)) : list (option string) :=
  if (MAX_CACHE_SIZE <? length processedTransactions)%nat then
    let toKeep := slice_last MAX_CACHE_SIZE processedTransactions in
    fold_left (fun set sig => set_add sig set) toKeep []
  else processedTransactions.

(** The timer fires at every positive multiple of the period. *)
Definition cleanup_due (elapsed_ms : Z) : bool :=
  (0 <? elapsed_ms) && (elapsed_ms mod CLEANUP_INTERVAL_MS =? 0).

(** ** The Redis store *)

Definition cacheKey (signature : option string) : string := "tx:" +:+ interpolate signature.

Definition MARKER : string := "1".
Definition TTL_SECONDS : Z := 900.

(** A value read from the store is truthy unless it is absent or empty. *)
Definition exists_truthy (v : option string) : bool :=
  match v with
  | Some s => negb (String.eqb s "")
  | None => false
  end.

(** ** Observations on a run *)

Definition outcome {D A} (run : Completion A * State D * list Entry) : Completion A := run.1.1.
Definition final {D A} (run : Completion A * State D * list Entry) : State D := run.1.2.
Definition trace {D A} (run : Completion A * State D * list Entry) : list Entry := run.2.

Definition is_delivery (a : Action) : bool :=
  match a with Fetch _ _ _ => true | _ => false end.
Definition is_decode (a : Action) : bool :=
  match a with CallDecode _ => true | _ => false end.
Definition is_format (a : Action) : bool :=
  match a with CallFormat _ => true | _ => false end.
Definition is_store_write (a : Action) : bool :=
  match a with SetAdd _ | RedisSet _ _ _ => true | _ => false end.
Definition is_error_log (a : Action) : bool :=
  match a with ConsoleError _ => true | _ => false end.
Definition is_ack (a : Action) : bool :=
  match a with Respond 200 {| received := true |} => true | _ => false end.

(** Some action of the trace satisfies [p]. *)
Definition performs (p : Action -> bool) (t : list Entry) : bool :=
  existsb (fun e => p e.2) t.

#[global] Instance Scope_eq_dec : EqDecision Scope.
Proof. solve_decision. Defined.

(** The number of chat deliveries attempted while processing events with
    the given signature. *)
Fixpoint deliveries (signature : option string) (t : list Entry) : nat :=
  match t with
  | [] => 0
  | (sc, a) :: rest =>
      (if bool_decide (sc = OfEvent signature) && is_delivery a then 1 else 0)
      + deliveries signature rest
  end%nat.

(** The number of chat deliveries attempted, whatever the event. *)
Definition attempts (t : list Entry) : nat :=
  length (List.filter (fun e => is_delivery e.2) t).

(** The requests to the chat API that a trace holds, in order. *)
Definition posts (t : list Entry) : list Entry :=
  List.filter (fun e => is_delivery e.2) t.

(** Two runs that end alike and post the same requests. *)
Definition alike {D} (run1 run2 : Completion unit * State D * list Entry) : Prop :=
  outcome run1 = outcome run2 ∧ final run1 = final run2 ∧
  posts (trace run1) = posts (trace run2).

(** The trace of a run as the loop records it for one event. *)
Definition rescope (sc : Scope) (t : list Entry) : list Entry :=
  map (fun e => (sc, e.2)) t.

(** The store answers the handler's lookup of this signature with a
    truthy value, as it does once the handler has written its marker. *)
Definition redis_marked (db : gmap string string) (signature : option string) : Prop :=
  exists_truthy (db !! cacheKey signature) = true.

(** What the notifier writes on the console for an answer of the API, and
    what it returns. *)
Definition send_log (answer : FetchOutcome) : Action :=
  match answer with
  | Rejects error => ConsoleError ("❌ Error sending to Telegram: " +:+ error_message error)
  | Resolves result =>
      if ok result then ConsoleLog "✅ Message sent to Telegram successfully"
      else ConsoleError ("❌ Failed to send to Telegram: " +:+
                         interpolate (api_description result))
  end.

Definition send_result (answer : FetchOutcome) : option ApiResult :=
  match answer with
  | Rejects _ => None
  | Resolves result => Some result
  end.

(** A run that continues another one: its trace comes after [t]. *)
Definition after {D A} (t : list Entry) (run : Completion A * State D * list Entry)
  : Completion A * State D * list Entry :=
  (outcome run, final run, t ++ trace run).

(** ** States and lines that the handlers reach *)

(** The state after one request to the chat API. *)
Definition sent {D} (st : State D) : State D :=
  mkState (store st) (S (fetches st)) (redis_calls st).

(** The state after [processedTransactions.add(signature)]. *)
Definition added (signature : option string) (st : State (list (option string)))
  : State (list (option string)) :=
  mkState (set_add signature (store st)) (fetches st) (redis_calls st).

(** The state after one Redis command that changed nothing. *)
Definition asked (st : State (gmap string string)) : State (gmap string string) :=
  mkState (store st) (fetches st) (S (redis_calls st)).

(** The state after a [SET] of the signature's key that reached the store. *)
Definition marked (signature : option string) (st : State (gmap string string))
  : State (gmap string string) :=
  mkState (<[cacheKey signature := MARKER]> (store st)) (fetches st) (S (redis_calls st)).

Definition skip_line (event : Event.t) : string :=
  "⏭️ Skipping event type: " +:+ toLowerCase (or_else (Event.type event) "").

Definition failure_line : string := "❌ Error processing transaction: fetch failed".

(** The response every handler sends. *)
Definition ack : Entry := (OfRequest, Respond 200 {| received := true |}).

(** ** Sample data *)

Definition USDC_MINT : string := "EPjFWdd5AufqSSqeM2qN1xzybapC8G4wEGGkZwyTDt1v".

Definition sample_transfer : Transfer.t :=
  {| Transfer.fromUserAccount := Some "A";
     Transfer.toUserAccount := Some "B";
     Transfer.mint := Some USDC_MINT;
     Transfer.tokenAmount := Some 10%float |}.

Definition other_transfer : Transfer.t :=
  {| Transfer.fromUserAccount := Some "C";
     Transfer.toUserAccount := Some "D";
     Transfer.mint := Some "So11111111111111111111111111111111111111112";
     Transfer.tokenAmount := Some 3%float |}.

(** The event of the end-to-end scenario. *)
Definition sample_withdrawal : Event.t :=
  {| Event.signature := Some "abc123";
     Event.timestamp := Some 1700000000;
     Event.type := Some "WITHDRAW_SOL";
     Event.description := None;
     Event.source := None;
     Event.fee := Some 5000000;
     Event.tokenTransfers := Some [sample_transfer] |}.

Definition sample_deposit : Event.t :=
  {| Event.signature := Some "def456";
     Event.timestamp := Some 1700000000;
     Event.type := Some "DEPOSIT";
     Event.description := None;
     Event.source := None;
     Event.fee := Some 5000;
     Event.tokenTransfers := None |}.

(** A withdrawal whose timestamp, an integer, is beyond the range of
    [Date]. *)
Definition undatable_withdrawal : Event.t :=
  {| Event.signature := Some "ghi789";
     Event.timestamp := Some 8640000000001;
     Event.type := Some "WITHDRAW";
     Event.description := None;
     Event.source := None;
     Event.fee := Some 5000;
     Event.tokenTransfers := Some [] |}.

(** A deposit that carries no signature. *)
Definition unsigned_deposit : Event.t :=
  {| Event.signature := None;
     Event.timestamp := Some 1700000000;
     Event.type := Some "DEPOSIT";
     Event.description := None;
     Event.source := None;
     Event.fee := Some 5000;
     Event.tokenTransfers := None |}.

Definition telegram_accepts (n : nat) : FetchOutcome :=
  Resolves {| ok := true; api_description := None |}.
Definition telegram_refuses (n : nat) : FetchOutcome :=
  Resolves {| ok := false; api_description := Some "Bad Request: chat not found" |}.
Definition telegram_down (n : nat) : FetchOutcome :=
  Rejects (NetworkError "request to https://api.telegram.org failed").

Definition redis_up (n : nat) : bool := false.
Definition redis_down (n : nat) : bool := true.
(** Only the n-th command fails. *)
Definition redis_drops (n : nat) (k : nat) : bool := Nat.eqb k n.

(** A conversion of numbers that is right on the sample amounts. *)
Definition sample_Number_toString (x : float) : string :=
  if PrimFloat.eqb x 10%float then "10" else "3".

(** A set of [n] distinct signatures, oldest first. *)
Definition numbered_signatures (n : nat) : list (option string) :=
  map (fun k => Some (pad4 (Z.of_nat k))) (seq 0 n).

Definition empty_state {D} (db : D) : State D := mkState db 0 0.

Section Service.

(** The runtime's conversion of a number to a string. *)
Variable Number_toString : float -> string.

(** The process configuration. *)
Variable TELEGRAM_BOT_TOKEN : option string.
Variable TELEGRAM_CHAT_ID : option string.

(** What the Telegram API answers to the n-th request, and whether the
    n-th Redis command fails to reach the store. *)
Variable telegram : nat -> FetchOutcome.
Variable redis_unreachable : nat -> bool.

(** ** The formatter *)

Definition formatTelegramMessage (decoded : Decoded.t) : string :=
  let message := "🔔 <b>New Withdrawal Detected</b>" +:+ nl +:+ nl in
  let message :=
    match Decoded.withdrawal decoded with
    | Some w =>
        message +:+
        "<b>Token Transfer:</b>" +:+ nl +:+ nl +:+
        "<b>" +:+ value_to_string (Withdrawal.token w) +:+ "</b>" +:+ nl +:+
        "Amount: " +:+
          match Withdrawal.amount w with
          | Some a => Number_toString a
          | None => "undefined"
          end +:+ nl +:+
        "From: <code>" +:+ interpolate (Withdrawal.from w) +:+ "</code>" +:+ nl +:+
        "To: <code>" +:+ interpolate (Withdrawal.to w) +:+ "</code>" +:+ nl
    | None => message
    end in
  let message :=
    message +:+ nl +:+ "🔗 <b>Transaction:</b>" +:+ nl +:+
    "<code>" +:+ interpolate (Decoded.signature decoded) +:+ "</code>" +:+ nl in
  message +:+ nl +:+ "<a href=" +:+ dquote +:+ "https://solscan.io/tx/" +:+
  interpolate (Decoded.signature decoded) +:+ dquote +:+ ">View on Solscan</a>".

(** ** The notifier *)

Definition api_url : string :=
  "https://api.telegram.org/bot" +:+ interpolate TELEGRAM_BOT_TOKEN +:+ "/sendMessage".

Definition console_log {D} (line : string) : M D unit := act (ConsoleLog line).
Definition console_error {D} (line : string) : M D unit := act (ConsoleError line).

(** [await fetch(url, ...)] and [await response.json()]. *)
Definition fetch_json {D} (url : string) (text : string) : M D ApiResult :=
  fun st =>
    let st1 := mkState (store st) (S (fetches st)) (redis_calls st) in
    let t := [(OfRequest, Fetch url TELEGRAM_CHAT_ID text)] in
    match telegram (fetches st) with
    | Rejects e => (Throw e, st1, t)
    | Resolves r => (Normal r, st1, t)
    end.

Definition sendTelegramMessage {D} (message : string) : M D (option ApiResult) :=
  let url := api_url in
  try_catch
    (result <- fetch_json url message ;;
     (if ok result
      then console_log "✅ Message sent to Telegram successfully"
      else console_error ("❌ Failed to send to Telegram: " +:+
                          interpolate (api_description result))) ;;
     ret (Some result))
    (fun error =>
       console_error ("❌ Error sending to Telegram: " +:+ error_message error) ;;
       ret None).

(** Decode, format and send: the three calls of the matched branch. *)
Definition notify {D} (event : Event.t) : M D unit :=
  decoded <- (act (CallDecode event) ;; lift (decodeWebhookEvent event)) ;;
  message <- (act (CallFormat decoded) ;; ret (formatTelegramMessage decoded)) ;;
  _ <- sendTelegramMessage message ;;
  ret tt.

(** [signature.slice(0, 16)] in the duplicate log line throws when the
    event has no signature. *)
Definition log_duplicate {D} (signature : option string) : M D unit :=
  match signature with
  | Some sig =>
      console_log ("⏭️ Duplicate transaction detected, skipping: " +:+ slice0 16 sig +:+ "...")
  | None => throw (TypeError "Cannot read properties of undefined (reading 'slice')")
  end.

Definition log_skipped {D} (event : Event.t) : M D unit :=
  act ConsoleLogTime ;;
  console_log ("⏭️ Skipping event type: " +:+ lowered (Event.type event)).

Definition respond {D} : M D unit := act (Respond 200 {| received := true |}).

(** ** The handler without deduplication *)

Definition nodedup_event (event : Event.t) : M unit unit :=
  if is_withdrawal event then
    console_log "Withdrawal detected!" ;;
    notify event
  else log_skipped event.

Definition webhook_nodedup (payload : Payload) : M unit unit :=
  console_log "Webhook received from Helius" ;;
  act (ConsoleLogJson payload) ;;
  for_of (events_of payload) nodedup_event ;;
  respond.

(** ** The handler with the in-memory set *)

Definition processedTransactions_add (signature : option string)
  : M (list (option string)) unit :=
  set <- get_store ;;
  put_store (set_add signature set) ;;
  act (SetAdd signature).

Definition memory_event (event : Event.t) : M (list (option string)) unit :=
  let signature := Event.signature event in
  processedTransactions <- get_store ;;
  if set_has signature processedTransactions then log_duplicate signature
  else if is_withdrawal event then
    console_log "💸 Withdrawal detected!" ;;
    processedTransactions_add signature ;;
    notify event
  else
    log_skipped event ;;
    processedTransactions_add signature.

Definition webhook_memory (payload : Payload) : M (list (option string)) unit :=
  console_log "📨 Webhook received from Helius" ;;
  respond ;;
  for_of (events_of payload) memory_event.

(** ** The handler with the Redis store *)

(** A command that does not reach the store rejects and changes nothing. *)
Definition redis_get (key : string) : M (gmap string string) (option string) :=
  fun st =>
    let st1 := mkState (store st) (fetches st) (S (redis_calls st)) in
    let t := [(OfRequest, RedisGet key)] in
    if redis_unreachable (redis_calls st)
    then (Throw (NetworkError "fetch failed"), st1, t)
    else (Normal (store st !! key), st1, t).

Definition redis_set (key value : string) (ex : Z) : M (gmap string string) unit :=
  fun st =>
    let t := [(OfRequest, RedisSet key value ex)] in
    if redis_unreachable (redis_calls st)
    then (Throw (NetworkError "fetch failed"),
          mkState (store st) (fetches st) (S (redis_calls st)), t)
    else (Normal tt,
          mkState (<[key := value]> (store st)) (fetches st) (S (redis_calls st)), t).

Definition redis_event (event : Event.t) : M (gmap string string) unit :=
  let signature := Event.signature event in
  try_catch
    (let key := cacheKey signature in
     exists_ <- redis_get key ;;
     if exists_truthy exists_ then log_duplicate signature
     else if is_withdrawal event then
       console_log "💸 Withdrawal detected!" ;;
       redis_set key MARKER TTL_SECONDS ;;
       notify event
     else
       log_skipped event ;;
       redis_set key MARKER TTL_SECONDS)
    (fun error =>
       console_error ("❌ Error processing transaction: " +:+ error_message error)).

Definition webhook_redis (payload : Payload) : M (gmap string string) unit :=
  console_log "📨 Webhook received from Helius" ;;
  for_of (events_of payload) redis_event ;;
  respond.

(** * Properties *)

(** ** Runs of the shared steps *)

Lemma sendTelegramMessage_run {D} (message : string) (st : State D) :
  sendTelegramMessage message st =
  (Normal (send_result (telegram (fetches st))), sent st,
   [(OfRequest, Fetch api_url TELEGRAM_CHAT_ID message);
    (OfRequest, send_log (telegram (fetches st)))]).
Proof.
  unfold sendTelegramMessage, try_catch, bind, fetch_json, send_result, send_log, sent.
  destruct (telegram (fetches st)) as [error | result]; simpl; [reflexivity |].
  destruct (ok result); reflexivity.
Qed.

Lemma notify_run {D} (event : Event.t) (st : State D) :
  notify event st =
  match decodeWebhookEvent event with
  | Throw error => (Throw error, st, [(OfRequest, CallDecode event)])
  | Normal decoded =>
      (Normal tt, sent st,
       [(OfRequest, CallDecode event);
        (OfRequest, CallFormat decoded);
        (OfRequest, Fetch api_url TELEGRAM_CHAT_ID (formatTelegramMessage decoded));
        (OfRequest, send_log (telegram (fetches st)))])
  end.
Proof.
  unfold notify. unfold bind at 1. unfold bind at 1. unfold act, lift.
  destruct (decodeWebhookEvent event) as [decoded | error]; [| reflexivity].
  unfold bind at 1. unfold bind at 1. unfold act, ret. unfold bind.
  rewrite sendTelegramMessage_run. reflexivity.
Qed.

Lemma for_of_cons {D} (body : Event.t → M D unit) (event : Event.t)
    (rest : list Event.t) (st : State D) :
  for_of (event :: rest) body st =
  match outcome (body event st) with
  | Normal _ =>
      after (rescope (OfEvent (Event.signature event)) (trace (body event st)))
            (for_of rest body (final (body event st)))
  | Throw error =>
      (Throw error, final (body event st),
       rescope (OfEvent (Event.signature event)) (trace (body event st)))
  end.
Proof.
  simpl. unfold bind, in_scope, after, outcome, final, trace, rescope.
  destruct (body event st) as [[[[] | error] st1] t1]; simpl; [| reflexivity].
  destruct (for_of rest body st1) as [[r st2] t2]. reflexivity.
Qed.

(** ** One iteration of each handler *)

Lemma nodedup_event_run (event : Event.t) (st : State unit) :
  nodedup_event event st =
  if is_withdrawal event then
    after [(OfRequest, ConsoleLog "Withdrawal detected!")] (notify event st)
  else
    (Normal tt, st, [(OfRequest, ConsoleLogTime); (OfRequest, ConsoleLog (skip_line event))]).
Proof.
  unfold nodedup_event. destruct (is_withdrawal event); [| reflexivity].
  unfold bind, console_log, act, after, outcome, final, trace.
  destruct (notify event st) as [[r st1] t1]. reflexivity.
Qed.

Lemma memory_event_run (event : Event.t) (st : State (list (option string))) :
  memory_event event st =
  if set_has (Event.signature event) (store st) then log_duplicate (Event.signature event) st
  else if is_withdrawal event then
    after [(OfRequest, ConsoleLog "💸 Withdrawal detected!");
           (OfRequest, SetAdd (Event.signature event))]
          (notify event (added (Event.signature event) st))
  else
    (Normal tt, added (Event.signature event) st,
     [(OfRequest, ConsoleLogTime); (OfRequest, ConsoleLog (skip_line event));
      (OfRequest, SetAdd (Event.signature event))]).
Proof.
  unfold memory_event. unfold bind at 1. unfold get_store.
  destruct (set_has (Event.signature event) (store st)).
  { destruct (log_duplicate (Event.signature event) st) as [[[[] | error] st1] t1];
      reflexivity. }
  destruct (is_withdrawal event); [| reflexivity].
  unfold bind, console_log, processedTransactions_add, get_store, put_store, act,
    after, outcome, final, trace, added. simpl.
  match goal with |- context [notify event ?s] => destruct (notify event s) as [[r st1] t1] end.
  reflexivity.
Qed.

Lemma redis_event_run (event : Event.t) (st : State (gmap string string)) :
  let signature := Event.signature event in
  let key := cacheKey signature in
  redis_event event st =
  if redis_unreachable (redis_calls st) then
    (Normal tt, asked st,
     [(OfRequest, RedisGet key); (OfRequest, ConsoleError failure_line)])
  else if exists_truthy (store st !! key) then
    match signature with
    | Some sig =>
        (Normal tt, asked st,
         [(OfRequest, RedisGet key);
          (OfRequest, ConsoleLog ("⏭️ Duplicate transaction detected, skipping: " +:+
                                  slice0 16 sig +:+ "..."))])
    | None =>
        (Normal tt, asked st,
         [(OfRequest, RedisGet key);
          (OfRequest, ConsoleError ("❌ Error processing transaction: " +:+
             "Cannot read properties of undefined (reading 'slice')"))])
    end
  else if is_withdrawal event then
    if redis_unreachable (S (redis_calls st)) then
      (Normal tt, asked (asked st),
       [(OfRequest, RedisGet key);
        (OfRequest, ConsoleLog "💸 Withdrawal detected!");
        (OfRequest, RedisSet key MARKER TTL_SECONDS);
        (OfRequest, ConsoleError failure_line)])
    else
      match decodeWebhookEvent event with
      | Throw error =>
          (Normal tt, marked signature (asked st),
           [(OfRequest, RedisGet key);
            (OfRequest, ConsoleLog "💸 Withdrawal detected!");
            (OfRequest, RedisSet key MARKER TTL_SECONDS);
            (OfRequest, CallDecode event);
            (OfRequest, ConsoleError ("❌ Error processing transaction: " +:+
                                      error_message error))])
      | Normal decoded =>
          (Normal tt, sent (marked signature (asked st)),
           [(OfRequest, RedisGet key);
            (OfRequest, ConsoleLog "💸 Withdrawal detected!");
            (OfRequest, RedisSet key MARKER TTL_SECONDS);
            (OfRequest, CallDecode event);
            (OfRequest, CallFormat decoded);
            (OfRequest, Fetch api_url TELEGRAM_CHAT_ID (formatTelegramMessage decoded));
            (OfRequest, send_log (telegram (fetches st)))])
      end
  else
    if redis_unreachable (S (redis_calls st)) then
      (Normal tt, asked (asked st),
       [(OfRequest, RedisGet key);
        (OfRequest, ConsoleLogTime); (OfRequest, ConsoleLog (skip_line event));
        (OfRequest, RedisSet key MARKER TTL_SECONDS);
        (OfRequest, ConsoleError failure_line)])
    else
      (Normal tt, marked signature (asked st),
       [(OfRequest, RedisGet key);
        (OfRequest, ConsoleLogTime); (OfRequest, ConsoleLog (skip_line event));
        (OfRequest, RedisSet key MARKER TTL_SECONDS)]).
Proof.
  intros signature key. unfold redis_event, try_catch.
  fold signature. fold key. unfold bind at 1. unfold redis_get.
  destruct (redis_unreachable (redis_calls st)) eqn:Hget; [reflexivity |].
  destruct (exists_truthy (store st !! key)).
  { destruct signature; reflexivity. }
  destruct (is_withdrawal event).
  - unfold bind at 1. unfold bind at 1. unfold console_log, act. simpl.
    unfold redis_set. simpl.
    destruct (redis_unreachable (S (redis_calls st))) eqn:Hset; [reflexivity |].
    rewrite notify_run. simpl.
    destruct (decodeWebhookEvent event); reflexivity.
  - unfold log_skipped, bind, redis_set, console_log, act. simpl.
    destruct (redis_unreachable (S (redis_calls st))) eqn:Hset; reflexivity.
Qed.

(** ** Counting deliveries *)

Lemma deliveries_app (sig : option string) (t1 t2 : list Entry) :
  deliveries sig (t1 ++ t2) = (deliveries sig t1 + deliveries sig t2)%nat.
Proof.
  induction t1 as [| [sc a] t1 IH]; simpl; [reflexivity |]. rewrite IH. lia.
Qed.

Lemma deliveries_rescope (sig s : option string) (t : list Entry) :
  deliveries sig (rescope (OfEvent s) t) = if bool_decide (s = sig) then attempts t else 0%nat.
Proof.
  unfold attempts, rescope. induction t as [| [sc a] t IH]; simpl.
  - by destruct (bool_decide (s = sig)).
  - rewrite IH. destruct (decide (s = sig)) as [-> | Hne].
    + rewrite !bool_decide_eq_true_2 by done. simpl. by destruct (is_delivery a).
    + rewrite bool_decide_eq_false_2 by congruence.
      by rewrite bool_decide_eq_false_2.
Qed.

Lemma deliveries_request (sig : option string) (a : Action) (t : list Entry) :
  deliveries sig ((OfRequest, a) :: t) = deliveries sig t.
Proof. reflexivity. Qed.

Lemma performs_app (p : Action → bool) (t1 t2 : list Entry) :
  performs p (t1 ++ t2) = performs p t1 || performs p t2.
Proof. unfold performs. apply existsb_app. Qed.

Lemma performs_rescope (p : Action → bool) (sc : Scope) (t : list Entry) :
  performs p (rescope sc t) = performs p t.
Proof.
  unfold performs, rescope. induction t as [| e t IH]; simpl; [done |]. by rewrite IH.
Qed.

Lemma trace_after {D A} (t : list Entry) (run : Completion A * State D * list Entry) :
  trace (after t run) = t ++ trace run.
Proof. reflexivity. Qed.

Lemma final_after {D A} (t : list Entry) (run : Completion A * State D * list Entry) :
  final (after t run) = final run.
Proof. reflexivity. Qed.

Lemma outcome_after {D A} (t : list Entry) (run : Completion A * State D * list Entry) :
  outcome (after t run) = outcome run.
Proof. reflexivity. Qed.

Lemma trace_run {D A} (r : Completion A) (st : State D) (t : list Entry) :
  trace (r, st, t) = t.
Proof. reflexivity. Qed.

Lemma final_run {D A} (r : Completion A) (st : State D) (t : list Entry) :
  final (r, st, t) = st.
Proof. reflexivity. Qed.

Lemma outcome_run {D A} (r : Completion A) (st : State D) (t : list Entry) :
  outcome (r, st, t) = r.
Proof. reflexivity. Qed.

(** ** A loop over a deduplicating body

    What both stores give the loop: a mark stays, a marked event is not
    delivered, no event is delivered twice, and a delivered event is
    marked. *)
Section Dedup.

Context {D : Type}.
Variable body : Event.t → M D unit.
Variable holds : D → option string → Prop.

Hypothesis stays : ∀ event st sig,
  holds (store st) sig → holds (store (final (body event st))) sig.
Hypothesis skips : ∀ event st,
  holds (store st) (Event.signature event) → attempts (trace (body event st)) = 0%nat.
Hypothesis once : ∀ event st, (attempts (trace (body event st)) ≤ 1)%nat.
Hypothesis marks : ∀ event st,
  (1 ≤ attempts (trace (body event st)))%nat →
  holds (store (final (body event st))) (Event.signature event).

Lemma loop_delivers_once (sig : option string) (events : list Event.t) (st : State D) :
  (holds (store st) sig → deliveries sig (trace (for_of events body st)) = 0%nat) ∧
  (deliveries sig (trace (for_of events body st)) ≤ 1)%nat ∧
  ((1 ≤ deliveries sig (trace (for_of events body st)))%nat →
   holds (store (final (for_of events body st))) sig) ∧
  (holds (store st) sig → holds (store (final (for_of events body st))) sig).
Proof.
  revert st. induction events as [| event rest IH]; intros st.
  { simpl. repeat split; auto; lia. }
  rewrite for_of_cons.
  pose proof (stays event st sig) as Hstay.
  destruct (IH (final (body event st))) as (IH0 & IH1 & IHm & IHs).
  set (here := deliveries sig (rescope (OfEvent (Event.signature event)) (trace (body event st)))).
  assert (Hhere : (here ≤ 1)%nat ∧ (holds (store st) sig → here = 0%nat) ∧
                  ((1 ≤ here)%nat → holds (store (final (body event st))) sig)).
  { unfold here. rewrite deliveries_rescope.
    pose proof (once event st). pose proof (skips event st). pose proof (marks event st).
    case_bool_decide as Heq; [subst sig |]; repeat split; intros; auto; lia. }
  destruct Hhere as (Hle & Hzero & Hmark).
  destruct (outcome (body event st)) as [[] | error].
  - rewrite trace_after, final_after, deliveries_app. fold here.
    set (later := deliveries sig (trace (for_of rest body (final (body event st))))) in *.
    repeat split.
    + intros H. rewrite (Hzero H), (IH0 (Hstay H)). done.
    + destruct here as [| n]; [lia |]. rewrite IH0; [lia |]. apply Hmark. lia.
    + intros H. destruct later as [| n].
      * apply IHs, Hmark. lia.
      * apply IHm. lia.
    + intros H. apply IHs, Hstay, H.
  - rewrite trace_run, final_run. fold here. repeat split; auto.
Qed.

End Dedup.

(** ** The set and its clean-up *)

Lemma set_has_true x s : set_has x s = true ↔ x ∈ s.
Proof. unfold set_has. apply bool_decide_eq_true. Qed.

Lemma set_has_false x s : set_has x s = false ↔ x ∉ s.
Proof. unfold set_has. apply bool_decide_eq_false. Qed.

Lemma set_add_elem x y s : y ∈ set_add x s ↔ y = x ∨ y ∈ s.
Proof.
  unfold set_add. destruct (set_has x s) eqn:E.
  - apply set_has_true in E. split; [auto | intros [-> | ?]; auto].
  - rewrite elem_of_app, list_elem_of_singleton. tauto.
Qed.

Lemma set_add_NoDup x s : NoDup s → NoDup (set_add x s).
Proof.
  intros H. unfold set_add. destruct (set_has x s) eqn:E; [done |].
  apply set_has_false in E. apply NoDup_app. split; [done |].
  split; [| apply NoDup_singleton].
  intros y Hy Hy'. apply list_elem_of_singleton in Hy'. subst. done.
Qed.

(** Adding back the members of a duplicate-free list rebuilds it. *)
Lemma readd_all (l acc : list (option string)) :
  NoDup (acc ++ l) → fold_left (fun set sig => set_add sig set) l acc = acc ++ l.
Proof.
  revert acc. induction l as [| x l IH]; intros acc H; simpl.
  - by rewrite app_nil_r.
  - assert (Hx : x ∉ acc).
    { apply NoDup_app in H as (_ & H & _). intros Hin. apply (H x Hin). left. }
    unfold set_add at 2. apply set_has_false in Hx. rewrite Hx.
    rewrite IH; rewrite <- app_assoc; done.
Qed.

Lemma cleanup_large (set : list (option string)) :
  NoDup set → (MAX_CACHE_SIZE < length set)%nat →
  cleanup set = drop (length set - MAX_CACHE_SIZE) set.
Proof.
  intros Hnd Hlen. unfold cleanup.
  apply Nat.ltb_lt in Hlen. rewrite Hlen. unfold slice_last.
  rewrite readd_all; [done |]. simpl.
  eapply sublist_NoDup; [| apply sublist_drop]; done.
Qed.

Lemma cleanup_small (set : list (option string)) :
  (length set ≤ MAX_CACHE_SIZE)%nat → cleanup set = set.
Proof.
  intros Hlen. unfold cleanup.
  destruct (Nat.ltb_spec MAX_CACHE_SIZE (length set)); [lia | done].
Qed.

Lemma cleanup_due_spec (elapsed : Z) :
  cleanup_due elapsed = true ↔ ∃ k, 0 < k ∧ elapsed = k * CLEANUP_INTERVAL_MS.
Proof.
  unfold cleanup_due, CLEANUP_INTERVAL_MS. rewrite andb_true_iff, Z.ltb_lt, Z.eqb_eq.
  split.
  - intros [Hpos Hmod]. exists (elapsed / 300000).
    pose proof (Z.div_mod elapsed 300000 ltac:(lia)) as Hdm.
    rewrite Hmod in Hdm. split; lia.
  - intros (k & Hk & ->). split; [lia |]. apply Z.mod_mul. lia.
Qed.

(** The clean-up and the handler keep the set free of duplicates. *)
Lemma cleanup_NoDup (set : list (option string)) : NoDup set → NoDup (cleanup set).
Proof.
  intros Hnd. destruct (Nat.ltb_spec MAX_CACHE_SIZE (length set)) as [Hlt | Hle].
  - rewrite cleanup_large by done. eapply sublist_NoDup; [| apply sublist_drop]; done.
  - by rewrite cleanup_small.
Qed.

(** A signature among the last [MAX_CACHE_SIZE] of the set outlives the
    clean-up. *)
Lemma cleanup_retains_recent (set : list (option string)) (sig : option string) :
  NoDup set → sig ∈ slice_last MAX_CACHE_SIZE set → sig ∈ cleanup set.
Proof.
  intros Hnd Hin. destruct (Nat.ltb_spec MAX_CACHE_SIZE (length set)) as [Hlt | Hle].
  - by rewrite cleanup_large.
  - rewrite cleanup_small by done. unfold slice_last in Hin.
    replace (length set - MAX_CACHE_SIZE)%nat with 0%nat in Hin by lia. done.
Qed.

(** C9: the timer fires every 5 minutes; on a set of more than 1000
    signatures the clean-up keeps exactly the last 1000 in insertion order
    and no other, and it leaves a set of at most 1000 as it is. *)
Theorem cleanup_keeps_most_recent (set : list (option string)) :
  NoDup set →
  CLEANUP_INTERVAL_MS = 5 * 60 * 1000 ∧
  (∀ elapsed, cleanup_due elapsed = true ↔ ∃ k, 0 < k ∧ elapsed = k * CLEANUP_INTERVAL_MS) ∧
  MAX_CACHE_SIZE = 1000%nat ∧
  ((length set ≤ 1000)%nat → cleanup set = set) ∧
  ((1000 < length set)%nat →
     ∃ discarded,
       set = discarded ++ cleanup set ∧
       length (cleanup set) = 1000%nat ∧
       (∀ sig, sig ∈ discarded → sig ∉ cleanup set)).
Proof.
  intros Hnd. split; [reflexivity |]. split; [apply cleanup_due_spec |].
  split; [reflexivity |]. split; [apply cleanup_small |].
  intros Hlen. exists (take (length set - MAX_CACHE_SIZE) set).
  rewrite (cleanup_large set Hnd Hlen).
  split; [by rewrite take_drop |]. split.
  - rewrite length_drop. unfold MAX_CACHE_SIZE in *. lia.
  - intros sig Hin Hin'.
    rewrite <- (take_drop (length set - MAX_CACHE_SIZE) set) in Hnd.
    apply NoDup_app in Hnd as (_ & Hdisj & _). by apply (Hdisj sig).
Qed.

(** ** The two stores under the loop *)

(** The notifier's console line is no other kind of action. *)
Lemma send_log_kind (answer : FetchOutcome) :
  is_delivery (send_log answer) = false ∧ is_decode (send_log answer) = false ∧
  is_format (send_log answer) = false ∧ is_store_write (send_log answer) = false ∧
  is_ack (send_log answer) = false.
Proof. destruct answer as [error | [[] description]]; repeat split. Qed.

Ltac observe :=
  unfold attempts, performs; simpl;
  repeat match goal with
  | |- context [?p (send_log ?a)] =>
      first [ rewrite (proj1 (send_log_kind a))
            | rewrite (proj1 (proj2 (send_log_kind a)))
            | rewrite (proj1 (proj2 (proj2 (send_log_kind a))))
            | rewrite (proj1 (proj2 (proj2 (proj2 (send_log_kind a)))))
            | rewrite (proj2 (proj2 (proj2 (proj2 (send_log_kind a))))) ]
  end; simpl.

Ltac memory_cases event st :=
  rewrite (memory_event_run event st);
  destruct (set_has (Event.signature event) (store st)) eqn:Hhas;
  [ unfold log_duplicate, console_log, act, throw;
    destruct (Event.signature event) as [sig0 |] eqn:Hsig
  | destruct (is_withdrawal event) eqn:Hwd;
    [ rewrite notify_run;
      destruct (decodeWebhookEvent event) as [decoded | error] eqn:Hdec
    | ] ].

Ltac redis_cases event st :=
  rewrite (redis_event_run event st);
  destruct (redis_unreachable (redis_calls st)) eqn:Hget;
  [ | destruct (exists_truthy (store st !! cacheKey (Event.signature event))) eqn:Hex;
      [ destruct (Event.signature event) as [sig0 |] eqn:Hsig
      | destruct (is_withdrawal event) eqn:Hwd;
        (destruct (redis_unreachable (S (redis_calls st))) eqn:Hset;
         [ | try (destruct (decodeWebhookEvent event) as [decoded | error] eqn:Hdec) ]) ] ].

Lemma memory_stays (event : Event.t) (st : State (list (option string))) (sig : option string) :
  sig ∈ store st → sig ∈ store (final (memory_event event st)).
Proof.
  intros H. memory_cases event st; simpl; try done;
    apply set_add_elem; by right.
Qed.

Lemma memory_skips (event : Event.t) (st : State (list (option string))) :
  Event.signature event ∈ store st → attempts (trace (memory_event event st)) = 0%nat.
Proof.
  intros H. apply set_has_true in H.
  memory_cases event st; try reflexivity; congruence.
Qed.

Lemma memory_once (event : Event.t) (st : State (list (option string))) :
  (attempts (trace (memory_event event st)) ≤ 1)%nat.
Proof. memory_cases event st; observe; lia. Qed.

Lemma memory_marks (event : Event.t) (st : State (list (option string))) :
  (1 ≤ attempts (trace (memory_event event st)))%nat →
  Event.signature event ∈ store (final (memory_event event st)).
Proof.
  memory_cases event st; observe; try lia; intros _; apply set_add_elem; by left.
Qed.

Lemma redis_marked_insert (db : gmap string string) (sig sig' : option string) :
  redis_marked db sig → redis_marked (<[cacheKey sig' := MARKER]> db) sig.
Proof.
  unfold redis_marked. intros H. rewrite lookup_insert. by case_decide.
Qed.

Lemma redis_marked_insert_same (db : gmap string string) (sig : option string) :
  redis_marked (<[cacheKey sig := MARKER]> db) sig.
Proof. unfold redis_marked. by rewrite lookup_insert_eq. Qed.

Lemma redis_stays (event : Event.t) (st : State (gmap string string)) (sig : option string) :
  redis_marked (store st) sig → redis_marked (store (final (redis_event event st))) sig.
Proof.
  intros H. redis_cases event st; simpl; try done; by apply redis_marked_insert.
Qed.

Lemma redis_skips (event : Event.t) (st : State (gmap string string)) :
  redis_marked (store st) (Event.signature event) →
  attempts (trace (redis_event event st)) = 0%nat.
Proof.
  unfold redis_marked. intros H.
  redis_cases event st; try reflexivity; congruence.
Qed.

Lemma redis_once (event : Event.t) (st : State (gmap string string)) :
  (attempts (trace (redis_event event st)) ≤ 1)%nat.
Proof. redis_cases event st; observe; lia. Qed.

Lemma redis_marks (event : Event.t) (st : State (gmap string string)) :
  (1 ≤ attempts (trace (redis_event event st)))%nat →
  redis_marked (store (final (redis_event event st))) (Event.signature event).
Proof.
  redis_cases event st; observe; try lia; intros _;
    rewrite <- ?Hsig; apply redis_marked_insert_same.
Qed.

Lemma memory_event_NoDup (event : Event.t) (st : State (list (option string))) :
  NoDup (store st) → NoDup (store (final (memory_event event st))).
Proof.
  intros H. memory_cases event st; simpl; try done; by apply set_add_NoDup.
Qed.

Lemma memory_loop_NoDup (events : list Event.t) (st : State (list (option string))) :
  NoDup (store st) → NoDup (store (final (for_of events memory_event st))).
Proof.
  revert st. induction events as [| event rest IH]; intros st H; [done |].
  rewrite for_of_cons. pose proof (memory_event_NoDup event st H) as H1.
  destruct (outcome (memory_event event st)).
  - rewrite final_after. by apply IH.
  - by rewrite final_run.
Qed.

(** The Redis handler catches whatever an iteration throws. *)
Lemma redis_event_normal (event : Event.t) (st : State (gmap string string)) :
  outcome (redis_event event st) = Normal tt.
Proof. redis_cases event st; reflexivity. Qed.

Lemma for_of_redis_normal (events : list Event.t) (st : State (gmap string string)) :
  outcome (for_of events redis_event st) = Normal tt.
Proof.
  revert st. induction events as [| event rest IH]; intros st; [reflexivity |].
  rewrite for_of_cons, redis_event_normal, outcome_after. apply IH.
Qed.

(** ** The handlers as runs of their loops *)

Lemma webhook_memory_run (payload : Payload) (st : State (list (option string))) :
  webhook_memory payload st =
  after [(OfRequest, ConsoleLog "📨 Webhook received from Helius"); ack]
        (for_of (events_of payload) memory_event st).
Proof.
  unfold webhook_memory, respond, console_log, bind, act, after, outcome, final, trace.
  destruct (for_of (events_of payload) memory_event st) as [[r st1] t1]. reflexivity.
Qed.

Lemma webhook_redis_run (payload : Payload) (st : State (gmap string string)) :
  webhook_redis payload st =
  (Normal tt, final (for_of (events_of payload) redis_event st),
   (OfRequest, ConsoleLog "📨 Webhook received from Helius") ::
   trace (for_of (events_of payload) redis_event st) ++ [ack]).
Proof.
  unfold webhook_redis, respond, console_log, bind, act.
  pose proof (for_of_redis_normal (events_of payload) st) as H.
  destruct (for_of (events_of payload) redis_event st) as [[r st1] t1].
  unfold outcome in H. simpl in H. subst r. reflexivity.
Qed.

Lemma webhook_nodedup_run (payload : Payload) (st : State unit) :
  webhook_nodedup payload st =
  match outcome (for_of (events_of payload) nodedup_event st) with
  | Normal _ =>
      (Normal tt, final (for_of (events_of payload) nodedup_event st),
       (OfRequest, ConsoleLog "Webhook received from Helius") ::
       (OfRequest, ConsoleLogJson payload) ::
       trace (for_of (events_of payload) nodedup_event st) ++ [ack])
  | Throw error =>
      (Throw error, final (for_of (events_of payload) nodedup_event st),
       (OfRequest, ConsoleLog "Webhook received from Helius") ::
       (OfRequest, ConsoleLogJson payload) ::
       trace (for_of (events_of payload) nodedup_event st))
  end.
Proof.
  unfold webhook_nodedup, respond, console_log, bind, act.
  destruct (for_of (events_of payload) nodedup_event st) as [[[[] | error] st1] t1];
    reflexivity.
Qed.

(** ** Deduplication *)

Lemma memory_loop (sig : option string) (events : list Event.t)
    (st : State (list (option string))) :
  (sig ∈ store st → deliveries sig (trace (for_of events memory_event st)) = 0%nat) ∧
  (deliveries sig (trace (for_of events memory_event st)) ≤ 1)%nat ∧
  ((1 ≤ deliveries sig (trace (for_of events memory_event st)))%nat →
   sig ∈ store (final (for_of events memory_event st))) ∧
  (sig ∈ store st → sig ∈ store (final (for_of events memory_event st))).
Proof.
  apply (loop_delivers_once memory_event (fun set sig => sig ∈ set)).
  - intros event st' s. apply memory_stays.
  - apply memory_skips.
  - apply memory_once.
  - apply memory_marks.
Qed.

Lemma redis_loop (sig : option string) (events : list Event.t)
    (st : State (gmap string string)) :
  (redis_marked (store st) sig → deliveries sig (trace (for_of events redis_event st)) = 0%nat) ∧
  (deliveries sig (trace (for_of events redis_event st)) ≤ 1)%nat ∧
  ((1 ≤ deliveries sig (trace (for_of events redis_event st)))%nat →
   redis_marked (store (final (for_of events redis_event st))) sig) ∧
  (redis_marked (store st) sig → redis_marked (store (final (for_of events redis_event st))) sig).
Proof.
  apply (loop_delivers_once redis_event redis_marked).
  - intros event st' s. apply redis_stays.
  - apply redis_skips.
  - apply redis_once.
  - apply redis_marks.
Qed.

Lemma webhook_memory_deliveries (sig : option string) (payload : Payload)
    (st : State (list (option string))) :
  deliveries sig (trace (webhook_memory payload st)) =
  deliveries sig (trace (for_of (events_of payload) memory_event st)) ∧
  store (final (webhook_memory payload st)) =
  store (final (for_of (events_of payload) memory_event st)).
Proof. by rewrite webhook_memory_run, trace_after, final_after. Qed.

Lemma webhook_redis_deliveries (sig : option string) (payload : Payload)
    (st : State (gmap string string)) :
  deliveries sig (trace (webhook_redis payload st)) =
  deliveries sig (trace (for_of (events_of payload) redis_event st)) ∧
  store (final (webhook_redis payload st)) =
  store (final (for_of (events_of payload) redis_event st)).
Proof.
  rewrite webhook_redis_run, trace_run, final_run. split; [| done].
  rewrite deliveries_request, deliveries_app. simpl. lia.
Qed.

(** Two requests against the in-memory set or the Redis store, the second
    one starting while the mark of the first is still there. *)
Lemma memory_two_requests (sig : option string) (first second : Payload)
    (st st' : State (list (option string))) :
  (sig ∈ store (final (webhook_memory first st)) → sig ∈ store st') →
  (deliveries sig (trace (webhook_memory first st)) +
   deliveries sig (trace (webhook_memory second st')) ≤ 1)%nat ∧
  ((1 ≤ deliveries sig (trace (webhook_memory first st)))%nat →
   deliveries sig (trace (webhook_memory second st')) = 0%nat).
Proof.
  destruct (webhook_memory_deliveries sig first st) as [-> ->].
  destruct (webhook_memory_deliveries sig second st') as [-> _].
  intros Hkept.
  destruct (memory_loop sig (events_of first) st) as (_ & H1 & Hm & _).
  destruct (memory_loop sig (events_of second) st') as (H0 & H1' & _ & _).
  assert (Hsecond : (1 ≤ deliveries sig (trace (for_of (events_of first) memory_event st)))%nat →
                    deliveries sig (trace (for_of (events_of second) memory_event st')) = 0%nat)
    by (intros H; apply H0, Hkept, Hm, H).
  split; [| exact Hsecond].
  destruct (deliveries sig (trace (for_of (events_of first) memory_event st))) as [| n];
    [lia |]. rewrite Hsecond; lia.
Qed.

Lemma redis_two_requests (sig : option string) (first second : Payload)
    (st st' : State (gmap string string)) :
  (redis_marked (store (final (webhook_redis first st))) sig → redis_marked (store st') sig) →
  (deliveries sig (trace (webhook_redis first st)) +
   deliveries sig (trace (webhook_redis second st')) ≤ 1)%nat ∧
  ((1 ≤ deliveries sig (trace (webhook_redis first st)))%nat →
   deliveries sig (trace (webhook_redis second st')) = 0%nat).
Proof.
  destruct (webhook_redis_deliveries sig first st) as [-> ->].
  destruct (webhook_redis_deliveries sig second st') as [-> _].
  intros Hkept.
  destruct (redis_loop sig (events_of first) st) as (_ & H1 & Hm & _).
  destruct (redis_loop sig (events_of second) st') as (H0 & H1' & _ & _).
  assert (Hsecond : (1 ≤ deliveries sig (trace (for_of (events_of first) redis_event st)))%nat →
                    deliveries sig (trace (for_of (events_of second) redis_event st')) = 0%nat)
    by (intros H; apply H0, Hkept, Hm, H).
  split; [| exact Hsecond].
  destruct (deliveries sig (trace (for_of (events_of first) redis_event st))) as [| n];
    [lia |]. rewrite Hsecond; lia.
Qed.

(** C1: an event whose signature the store already holds is skipped
    whole, with no decode, format, delivery or store write, in the
    in-memory and in the Redis handler; so two requests, the second within
    the retention of the first one's mark, deliver a signature at most
    once. *)
Theorem known_signature_is_skipped :
  (∀ event st,
     Event.signature event ∈ store st →
     final (memory_event event st) = st ∧
     performs is_decode (trace (memory_event event st)) = false ∧
     performs is_format (trace (memory_event event st)) = false ∧
     performs is_delivery (trace (memory_event event st)) = false ∧
     performs is_store_write (trace (memory_event event st)) = false) ∧
  (∀ event st,
     redis_marked (store st) (Event.signature event) →
     store (final (redis_event event st)) = store st ∧
     performs is_decode (trace (redis_event event st)) = false ∧
     performs is_format (trace (redis_event event st)) = false ∧
     performs is_delivery (trace (redis_event event st)) = false ∧
     performs is_store_write (trace (redis_event event st)) = false) ∧
  (∀ sig first second st st',
     (sig ∈ store (final (webhook_memory first st)) → sig ∈ store st') →
     (deliveries sig (trace (webhook_memory first st)) +
      deliveries sig (trace (webhook_memory second st')) ≤ 1)%nat) ∧
  (∀ sig first second st st',
     (redis_marked (store (final (webhook_redis first st))) sig → redis_marked (store st') sig) →
     (deliveries sig (trace (webhook_redis first st)) +
      deliveries sig (trace (webhook_redis second st')) ≤ 1)%nat).
Proof.
  split; [| split; [| split]].
  - intros event st H. apply set_has_true in H.
    memory_cases event st; try congruence; repeat split; by destruct st.
  - unfold redis_marked. intros event st H.
    redis_cases event st; try congruence; repeat split.
  - intros sig first second st st' H. apply (memory_two_requests sig first second st st' H).
  - intros sig first second st st' H. apply (redis_two_requests sig first second st st' H).
Qed.

(** ** The order of the store write and the delivery *)

(** A delivery of the trace lies behind any prefix that holds none. *)
Lemma delivery_behind (pre rest before later : list Entry) (d : Entry) :
  pre ++ rest = before ++ d :: later →
  performs is_delivery pre = false → is_delivery d.2 = true →
  ∃ between, before = pre ++ between.
Proof.
  revert before. induction pre as [| p pre IH]; intros before Heq Hpre Hd.
  { by exists before. }
  simpl in Hpre. apply orb_false_iff in Hpre as [Hp Hpre].
  destruct before as [| b before]; simpl in Heq; inversion Heq; subst.
  - congruence.
  - destruct (IH before) as [between ->]; auto. by exists between.
Qed.

Lemma no_delivery_inside (before later : list Entry) (d : Entry) :
  performs is_delivery (before ++ d :: later) = false → is_delivery d.2 = true → False.
Proof.
  rewrite performs_app. simpl. intros H Hd. rewrite Hd in H.
  apply orb_false_iff in H as [_ H]. discriminate.
Qed.

Lemma memory_write_first (event : Event.t) (st : State (list (option string)))
    (before later : list Entry) (d : Entry) :
  trace (memory_event event st) = before ++ d :: later → is_delivery d.2 = true →
  (OfRequest, SetAdd (Event.signature event)) ∈ before ∧
  Event.signature event ∈ store (final (memory_event event st)).
Proof.
  memory_cases event st; rewrite ?trace_after, ?final_after, ?trace_run, ?final_run;
    intros Heq Hd;
    try (exfalso; eapply no_delivery_inside; [| exact Hd];
         rewrite <- Heq; observe; reflexivity).
  split.
  - destruct (delivery_behind
                [(OfRequest, ConsoleLog "💸 Withdrawal detected!");
                 (OfRequest, SetAdd (Event.signature event))] _ _ _ _ Heq eq_refl Hd)
      as [between ->].
    set_solver.
  - simpl. apply set_add_elem. by left.
Qed.

Lemma redis_write_first (event : Event.t) (st : State (gmap string string))
    (before later : list Entry) (d : Entry) :
  trace (redis_event event st) = before ++ d :: later → is_delivery d.2 = true →
  (OfRequest, RedisSet (cacheKey (Event.signature event)) MARKER TTL_SECONDS) ∈ before ∧
  redis_unreachable (S (redis_calls st)) = false ∧
  redis_marked (store (final (redis_event event st))) (Event.signature event).
Proof.
  redis_cases event st; rewrite ?trace_run, ?final_run;
    intros Heq Hd;
    try (exfalso; eapply no_delivery_inside; [| exact Hd];
         rewrite <- Heq; observe; reflexivity).
  split; [| split; [done |]].
  - destruct (delivery_behind
                [(OfRequest, RedisGet (cacheKey (Event.signature event)));
                 (OfRequest, ConsoleLog "💸 Withdrawal detected!");
                 (OfRequest, RedisSet (cacheKey (Event.signature event)) MARKER TTL_SECONDS)]
                _ _ _ _ Heq eq_refl Hd)
      as [between ->].
    set_solver.
  - simpl. apply redis_marked_insert_same.
Qed.

(** C10: in both deduplicating handlers a delivery is attempted only after
    the signature has been written to the store, so whatever the chat API
    answers the signature stays marked, and a request that arrives while
    the mark is kept attempts no delivery for it. *)
Theorem signature_recorded_before_delivery :
  (∀ event st before d later,
     trace (memory_event event st) = before ++ d :: later → is_delivery d.2 = true →
     (OfRequest, SetAdd (Event.signature event)) ∈ before ∧
     Event.signature event ∈ store (final (memory_event event st))) ∧
  (∀ event st before d later,
     trace (redis_event event st) = before ++ d :: later → is_delivery d.2 = true →
     (OfRequest, RedisSet (cacheKey (Event.signature event)) MARKER TTL_SECONDS) ∈ before ∧
     redis_unreachable (S (redis_calls st)) = false ∧
     redis_marked (store (final (redis_event event st))) (Event.signature event)) ∧
  (∀ sig first second st st',
     (1 ≤ deliveries sig (trace (webhook_memory first st)))%nat →
     (sig ∈ store (final (webhook_memory first st)) → sig ∈ store st') →
     sig ∈ store (final (webhook_memory first st)) ∧
     deliveries sig (trace (webhook_memory second st')) = 0%nat) ∧
  (∀ sig first second st st',
     (1 ≤ deliveries sig (trace (webhook_redis first st)))%nat →
     (redis_marked (store (final (webhook_redis first st))) sig → redis_marked (store st') sig) →
     redis_marked (store (final (webhook_redis first st))) sig ∧
     deliveries sig (trace (webhook_redis second st')) = 0%nat).
Proof.
  split; [| split; [| split]].
  - intros event st before d later. apply memory_write_first.
  - intros event st before d later. apply redis_write_first.
  - intros sig first second st st' Hone Hkept. split.
    + destruct (webhook_memory_deliveries sig first st) as [Hd ->].
      rewrite Hd in Hone.
      destruct (memory_loop sig (events_of first) st) as (_ & _ & Hm & _). exact (Hm Hone).
    + by apply (memory_two_requests sig first second st st' Hkept).
  - intros sig first second st st' Hone Hkept. split.
    + destruct (webhook_redis_deliveries sig first st) as [Hd ->].
      rewrite Hd in Hone.
      destruct (redis_loop sig (events_of first) st) as (_ & _ & Hm & _). exact (Hm Hone).
    + by apply (redis_two_requests sig first second st st' Hkept).
Qed.

(** ** The withdrawal filter *)

Lemma lowered_default (field : option string) :
  lowered field = toLowerCase (default "" field).
Proof.
  unfold lowered, or_else. destruct field as [f |]; [| reflexivity].
  simpl. destruct (String.eqb_spec f ""); by subst.
Qed.

Lemma is_withdrawal_false (event : Event.t) :
  includes "withdraw" (toLowerCase (default "" (Event.type event))) = false →
  includes "withdraw" (toLowerCase (default "" (Event.description event))) = false →
  is_withdrawal event = false.
Proof.
  intros Ht Hd. unfold is_withdrawal. by rewrite !lowered_default, Ht, Hd.
Qed.

Lemma prefix_spec (needle s : string) :
  String.prefix needle s = true ↔ ∃ post, s = needle +:+ post.
Proof.
  revert s. induction needle as [| c needle IH]; intros s.
  - split; [by exists s | by destruct s].
  - destruct s as [| c' s]; simpl.
    + split; [discriminate | intros [post H]; discriminate].
    + destruct (ascii_dec c c') as [-> | Hne].
      * rewrite IH. split; intros [post H]; exists post; [by rewrite H | by inversion H].
      * split; [discriminate | intros [post H]; inversion H; done].
Qed.

Lemma includes_cons (needle : string) (c : ascii) (s : string) :
  includes needle (String c s) = String.prefix needle (String c s) || includes needle s.
Proof. reflexivity. Qed.

Lemma includes_nil (needle : string) :
  includes needle "" = String.prefix needle "" || false.
Proof. reflexivity. Qed.

(** [includes] finds exactly the strings that hold the needle. *)
Lemma includes_spec (needle s : string) :
  includes needle s = true ↔ ∃ pre post, s = pre +:+ needle +:+ post.
Proof.
  induction s as [| c s IH].
  - rewrite includes_nil, orb_true_iff, prefix_spec. split.
    + intros [[post H] | H]; [by exists "", post | discriminate].
    + intros (pre & post & H). left. destruct pre; [by exists post | discriminate].
  - rewrite includes_cons, orb_true_iff, prefix_spec, IH. split.
    + intros [[post H] | (pre & post & H)]; [by exists "", post |].
      exists (String c pre), post. simpl. by rewrite H.
    + intros (pre & post & H). destruct pre as [| c' pre]; simpl in H.
      * left. by exists post.
      * right. inversion H. by exists pre, post.
Qed.

(** C3, as the code has it: an event that the filter does not match is
    never delivered; the in-memory handler records its signature, and the
    Redis handler records it when its lookup and, for a new signature, its
    write reach the store; when one of them fails the failure is logged
    and the store is as before. *)
Theorem unmatched_event_is_not_delivered (event : Event.t) :
  includes "withdraw" (toLowerCase (default "" (Event.type event))) = false →
  includes "withdraw" (toLowerCase (default "" (Event.description event))) = false →
  (∀ st, performs is_delivery (trace (nodedup_event event st)) = false) ∧
  (∀ st, performs is_delivery (trace (memory_event event st)) = false ∧
         Event.signature event ∈ store (final (memory_event event st))) ∧
  (∀ st,
     performs is_delivery (trace (redis_event event st)) = false ∧
     (redis_unreachable (redis_calls st) = false →
      redis_marked (store st) (Event.signature event) ∨
      redis_unreachable (S (redis_calls st)) = false →
      redis_marked (store (final (redis_event event st))) (Event.signature event)) ∧
     (redis_unreachable (redis_calls st) = true ∨
      (¬ redis_marked (store st) (Event.signature event) ∧
       redis_unreachable (S (redis_calls st)) = true) →
      store (final (redis_event event st)) = store st ∧
      performs is_error_log (trace (redis_event event st)) = true)).
Proof.
  intros Ht Hd. pose proof (is_withdrawal_false event Ht Hd) as Hno.
  split; [| split].
  - intros st. rewrite nodedup_event_run, Hno. reflexivity.
  - intros st. memory_cases event st; try congruence; split; try reflexivity.
    + by apply set_has_true in Hhas.
    + by apply set_has_true in Hhas.
    + simpl. apply set_add_elem. by left.
  - intros st. unfold redis_marked.
    redis_cases event st; try congruence;
      (split; [reflexivity |]); (split; [intros Hup Hor | intros Hor]);
      simpl; rewrite <- ?Hsig;
      try apply redis_marked_insert_same; try done;
      try (destruct Hor as [? | [? ?]]; congruence).
    all: try (rewrite ?Hsig; exact Hex).
    all: destruct Hor as [? | ?]; congruence.
Qed.

(** ** The notifier and the loop around it *)

Lemma for_of_continues {D} (body : Event.t → M D unit) (event : Event.t)
    (rest : list Event.t) (st : State D) :
  outcome (body event st) = Normal tt →
  for_of (event :: rest) body st =
  after (rescope (OfEvent (Event.signature event)) (trace (body event st)))
        (for_of rest body (final (body event st))).
Proof. intros H. by rewrite for_of_cons, H. Qed.

Lemma delivery_completes_nodedup (event : Event.t) (st : State unit) :
  performs is_delivery (trace (nodedup_event event st)) = true →
  outcome (nodedup_event event st) = Normal tt ∧
  attempts (trace (nodedup_event event st)) = 1%nat ∧
  final (nodedup_event event st) = sent st.
Proof.
  rewrite nodedup_event_run. destruct (is_withdrawal event); [| discriminate].
  rewrite notify_run. destruct (decodeWebhookEvent event); [| discriminate].
  intros _. observe. done.
Qed.

Lemma delivery_completes_memory (event : Event.t) (st : State (list (option string))) :
  performs is_delivery (trace (memory_event event st)) = true →
  outcome (memory_event event st) = Normal tt ∧
  attempts (trace (memory_event event st)) = 1%nat ∧
  final (memory_event event st) = sent (added (Event.signature event) st).
Proof.
  memory_cases event st; try discriminate. intros _. observe. done.
Qed.

Lemma delivery_completes_redis (event : Event.t) (st : State (gmap string string)) :
  performs is_delivery (trace (redis_event event st)) = true →
  outcome (redis_event event st) = Normal tt ∧
  attempts (trace (redis_event event st)) = 1%nat ∧
  final (redis_event event st) = sent (marked (Event.signature event) (asked st)).
Proof.
  redis_cases event st; try discriminate. intros _. observe. done.
Qed.

(** C7: the notifier returns normally whatever the network does: [null]
    and an error line when the request fails, the API's result and an error
    line when the API refuses; it makes one request, and the loop of each
    handler goes on with the next event from a state that does not depend
    on the answer. *)
Theorem notifier_never_throws :
  (∀ D (message : string) (st : State D),
     ∃ result,
       sendTelegramMessage message st =
       (Normal result, sent st,
        [(OfRequest, Fetch api_url TELEGRAM_CHAT_ID message);
         (OfRequest, send_log (telegram (fetches st)))]) ∧
       (∀ error, telegram (fetches st) = Rejects error →
          result = None ∧
          send_log (telegram (fetches st)) =
          ConsoleError ("❌ Error sending to Telegram: " +:+ error_message error)) ∧
       (∀ answer, telegram (fetches st) = Resolves answer →
          result = Some answer ∧
          (ok answer = false →
           send_log (telegram (fetches st)) =
           ConsoleError ("❌ Failed to send to Telegram: " +:+
                         interpolate (api_description answer))))) ∧
  (∀ event rest st,
     performs is_delivery (trace (nodedup_event event st)) = true →
     attempts (trace (nodedup_event event st)) = 1%nat ∧
     final (nodedup_event event st) = sent st ∧
     for_of (event :: rest) nodedup_event st =
     after (rescope (OfEvent (Event.signature event)) (trace (nodedup_event event st)))
           (for_of rest nodedup_event (sent st))) ∧
  (∀ event rest st,
     performs is_delivery (trace (memory_event event st)) = true →
     attempts (trace (memory_event event st)) = 1%nat ∧
     final (memory_event event st) = sent (added (Event.signature event) st) ∧
     for_of (event :: rest) memory_event st =
     after (rescope (OfEvent (Event.signature event)) (trace (memory_event event st)))
           (for_of rest memory_event (sent (added (Event.signature event) st)))) ∧
  (∀ event rest st,
     performs is_delivery (trace (redis_event event st)) = true →
     attempts (trace (redis_event event st)) = 1%nat ∧
     final (redis_event event st) = sent (marked (Event.signature event) (asked st)) ∧
     for_of (event :: rest) redis_event st =
     after (rescope (OfEvent (Event.signature event)) (trace (redis_event event st)))
           (for_of rest redis_event (sent (marked (Event.signature event) (asked st))))).
Proof.
  split; [| split; [| split]].
  - intros D message st. exists (send_result (telegram (fetches st))).
    split; [apply sendTelegramMessage_run |].
    split.
    + intros error ->. done.
    + intros answer ->. split; [done |]. simpl. by intros ->.
  - intros event rest st H.
    destruct (delivery_completes_nodedup event st H) as (Hout & Hone & Hfin).
    rewrite (for_of_continues _ _ _ _ Hout), Hfin. done.
  - intros event rest st H.
    destruct (delivery_completes_memory event st H) as (Hout & Hone & Hfin).
    rewrite (for_of_continues _ _ _ _ Hout), Hfin. done.
  - intros event rest st H.
    destruct (delivery_completes_redis event st H) as (Hout & Hone & Hfin).
    rewrite (for_of_continues _ _ _ _ Hout), Hfin. done.
Qed.

(** ** Failures of the Redis store *)

(** C8, as the code has it: when the lookup or the write of an event does
    not reach the store, the failure is logged, the event is given up
    there (no decode, format or delivery, the store as before), and the
    loop goes on with the events that follow. *)
Theorem redis_failure_gives_up_event (event : Event.t) (st : State (gmap string string)) :
  redis_unreachable (redis_calls st) = true ∨
  (¬ redis_marked (store st) (Event.signature event) ∧
   redis_unreachable (S (redis_calls st)) = true) →
  outcome (redis_event event st) = Normal tt ∧
  performs is_error_log (trace (redis_event event st)) = true ∧
  performs is_decode (trace (redis_event event st)) = false ∧
  performs is_format (trace (redis_event event st)) = false ∧
  performs is_delivery (trace (redis_event event st)) = false ∧
  store (final (redis_event event st)) = store st ∧
  ∀ rest,
    for_of (event :: rest) redis_event st =
    after (rescope (OfEvent (Event.signature event)) (trace (redis_event event st)))
          (for_of rest redis_event (final (redis_event event st))).
Proof.
  intros Hfail.
  assert (Hrest : ∀ rest,
    for_of (event :: rest) redis_event st =
    after (rescope (OfEvent (Event.signature event)) (trace (redis_event event st)))
          (for_of rest redis_event (final (redis_event event st)))).
  { intros rest. apply for_of_continues, redis_event_normal. }
  revert Hrest. unfold redis_marked in Hfail.
  redis_cases event st; intros Hrest; repeat split; try exact Hrest;
    destruct Hfail as [? | [? ?]]; congruence.
Qed.

(** ** The acknowledgement *)

Lemma webhook_memory_acks (payload : Payload) (st : State (list (option string))) :
  ∃ rest,
    trace (webhook_memory payload st) =
    (OfRequest, ConsoleLog "📨 Webhook received from Helius") :: ack :: rest.
Proof. rewrite webhook_memory_run, trace_after. by eexists. Qed.

Lemma webhook_redis_acks (payload : Payload) (st : State (gmap string string)) :
  outcome (webhook_redis payload st) = Normal tt ∧
  ∃ before, trace (webhook_redis payload st) = before ++ [ack].
Proof.
  rewrite webhook_redis_run. split; [reflexivity |].
  rewrite trace_run. by eexists (_ :: _).
Qed.

Lemma nodedup_event_no_ack (event : Event.t) (st : State unit) :
  performs is_ack (trace (nodedup_event event st)) = false.
Proof.
  rewrite nodedup_event_run. destruct (is_withdrawal event); [| reflexivity].
  rewrite notify_run. destruct (decodeWebhookEvent event); observe; reflexivity.
Qed.

Lemma nodedup_loop_no_ack (events : list Event.t) (st : State unit) :
  performs is_ack (trace (for_of events nodedup_event st)) = false.
Proof.
  revert st. induction events as [| event rest IH]; intros st; [reflexivity |].
  rewrite for_of_cons. pose proof (nodedup_event_no_ack event st) as H.
  destruct (outcome (nodedup_event event st)).
  - by rewrite trace_after, performs_app, performs_rescope, H, IH.
  - by rewrite trace_run, performs_rescope.
Qed.

(** The handler without deduplication answers exactly when its loop does
    not throw. *)
Lemma webhook_nodedup_acks_iff (payload : Payload) (st : State unit) :
  performs is_ack (trace (webhook_nodedup payload st)) = true ↔
  outcome (for_of (events_of payload) nodedup_event st) = Normal tt.
Proof.
  rewrite webhook_nodedup_run.
  pose proof (nodedup_loop_no_ack (events_of payload) st) as H.
  destruct (outcome (for_of (events_of payload) nodedup_event st)) as [[] | error];
    rewrite trace_run; simpl; rewrite ?performs_app, H; simpl; split; done.
Qed.

(** The first matched event that cannot be decoded ends the loop. *)
Lemma nodedup_decode_failure (event : Event.t) (rest : list Event.t) (error : JsError)
    (st : State unit) :
  is_withdrawal event = true → decodeWebhookEvent event = Throw error →
  outcome (for_of (event :: rest) nodedup_event st) = Throw error.
Proof.
  intros Hwd Hdec. rewrite for_of_cons, nodedup_event_run, Hwd, notify_run, Hdec.
  reflexivity.
Qed.

(** C2, on a withdrawal whose timestamp [Date] cannot represent: the
    handler without deduplication ends with the decoder's [RangeError] and
    sends no response, alone or at the head of any batch. *)
Theorem webhook_nodedup_unacknowledged (rest : list Event.t) (st : State unit) :
  decodeWebhookEvent undatable_withdrawal = Throw (RangeError "Invalid time value") ∧
  outcome (webhook_nodedup (Single undatable_withdrawal) st) =
    Throw (RangeError "Invalid time value") ∧
  performs is_ack (trace (webhook_nodedup (Single undatable_withdrawal) st)) = false ∧
  outcome (webhook_nodedup (Batch (undatable_withdrawal :: rest)) st) =
    Throw (RangeError "Invalid time value") ∧
  performs is_ack (trace (webhook_nodedup (Batch (undatable_withdrawal :: rest)) st)) = false.
Proof.
  assert (Hloop : ∀ events, outcome (for_of (undatable_withdrawal :: events) nodedup_event st) =
                            Throw (RangeError "Invalid time value")).
  { intros events. by apply nodedup_decode_failure. }
  assert (Hack : ∀ payload,
            outcome (for_of (events_of payload) nodedup_event st) =
              Throw (RangeError "Invalid time value") →
            outcome (webhook_nodedup payload st) = Throw (RangeError "Invalid time value") ∧
            performs is_ack (trace (webhook_nodedup payload st)) = false).
  { intros payload H. split.
    - rewrite webhook_nodedup_run, H. reflexivity.
    - destruct (performs is_ack (trace (webhook_nodedup payload st))) eqn:E; [| done].
      apply webhook_nodedup_acks_iff in E. congruence. }
  split; [reflexivity |].
  destruct (Hack (Single undatable_withdrawal) (Hloop [])) as [H1 H2].
  destruct (Hack (Batch (undatable_withdrawal :: rest)) (Hloop rest)) as [H3 H4].
  done.
Qed.

(** ** The decoder *)

Lemma digit_is_digit (n : Z) : is_digit (digit n) = true.
Proof.
  unfold digit.
  assert (H : (Z.to_nat (n mod 10) < 10)%nat) by (pose proof (Z.mod_pos_bound n 10); lia).
  revert H. generalize (Z.to_nat (n mod 10)) as k. intros k H.
  do 10 (destruct k as [| k]; [reflexivity |]). lia.
Qed.

Lemma iso_string_shape (tv : Z) : iso_shape (iso_string tv) = true.
Proof.
  unfold iso_shape, iso_string.
  destruct (civil_from_days (tv / 86400000)) as [[y m] d].
  unfold iso_year.
  destruct ((0 <=? y) && (y <=? 9999)); [| destruct (y <? 0)];
    cbv -[digit is_digit Z.div Z.modulo Z.abs]; rewrite !digit_is_digit; reflexivity.
Qed.

Lemma LAMPORTS_PER_SOL_value : LAMPORTS_PER_SOL = Z2Num 1000000000.
Proof. reflexivity. Qed.

Lemma tokenSymbol_present (m : string) : ∃ symbol, tokenSymbol (Some m) = Normal symbol.
Proof.
  unfold tokenSymbol. destruct (get_property KNOWN_TOKENS (Some m)) as [v |]; [| eauto].
  destruct (truthy v); eauto.
Qed.

Lemma decodeWithdrawal_first (first : Transfer.t) (rest : list Transfer.t) :
  decodeWithdrawal (first :: rest) = decodeWithdrawal [first].
Proof. reflexivity. Qed.

(** C4: the withdrawal detail is that of the first transfer whatever
    follows it, and an event without transfers decodes to a summary with
    no detail that still carries the signature, the ISO 8601 timestamp,
    the type, the source and the converted fee. *)
Theorem decoder_reads_first_transfer (event : Event.t) (tv : Z) :
  newDate (Event.timestamp event) = Some tv →
  (∀ first rest,
     decodeWebhookEvent (with_transfers event (Some (first :: rest))) =
     decodeWebhookEvent (with_transfers event (Some [first])) ∧
     ∀ m, Transfer.mint first = Some m →
       ∃ symbol,
         tokenSymbol (Some m) = Normal symbol ∧
         decodeWebhookEvent (with_transfers event (Some (first :: rest))) =
         Normal {| Decoded.signature := Event.signature event;
                   Decoded.timestamp := iso_string tv;
                   Decoded.type := or_else (Event.type event) "UNKNOWN";
                   Decoded.source := or_else (Event.source event) "Unknown";
                   Decoded.withdrawal :=
                     Some {| Withdrawal.from := Transfer.fromUserAccount first;
                             Withdrawal.to := Transfer.toUserAccount first;
                             Withdrawal.token := symbol;
                             Withdrawal.amount := Transfer.tokenAmount first;
                             Withdrawal.mint := Some m |};
                   Decoded.fee := fee_in_sol (Event.fee event) |}) ∧
  (∀ absent, absent = None ∨ absent = Some [] →
     decodeWebhookEvent (with_transfers event absent) =
     Normal {| Decoded.signature := Event.signature event;
               Decoded.timestamp := iso_string tv;
               Decoded.type := or_else (Event.type event) "UNKNOWN";
               Decoded.source := or_else (Event.source event) "Unknown";
               Decoded.withdrawal := None;
               Decoded.fee := fee_in_sol (Event.fee event) |}) ∧
  iso_shape (iso_string tv) = true.
Proof.
  intros Hdate. split; [| split; [| apply iso_string_shape]].
  - intros first rest. split; [reflexivity |].
    intros m Hm. destruct (tokenSymbol_present m) as [symbol Hsym].
    exists symbol. split; [exact Hsym |].
    unfold decodeWebhookEvent. simpl. rewrite Hdate. simpl.
    rewrite Hm, Hsym. reflexivity.
  - intros absent [-> | ->]; unfold decodeWebhookEvent; simpl;
      rewrite Hdate; reflexivity.
Qed.

(** The detail is read off the event as given when it lists transfers. *)
Lemma with_transfers_same (event : Event.t) :
  with_transfers event (Event.tokenTransfers event) = event.
Proof. by destruct event. Qed.

(** ** The known-token table *)

Lemma KNOWN_TOKENS_lookup (m symbol : string) :
  KNOWN_TOKENS !! m = Some symbol →
  symbol = "USDC" ∨ symbol = "PYUSD" ∨ symbol = "kPUSD-USDC".
Proof.
  unfold KNOWN_TOKENS. rewrite !lookup_insert, lookup_empty.
  repeat case_decide; intros Hl; inversion Hl; auto.
Qed.

Lemma tokenSymbol_mapped (m symbol : string) :
  KNOWN_TOKENS !! m = Some symbol →
  tokenSymbol (Some m) = Normal (VString symbol).
Proof.
  intros H. unfold tokenSymbol, get_property. simpl. rewrite H.
  destruct (KNOWN_TOKENS_lookup m symbol H) as [-> | [-> | ->]]; reflexivity.
Qed.

Lemma tokenSymbol_unmapped (m : string) :
  KNOWN_TOKENS !! m = None → m ∉ OBJECT_PROTOTYPE →
  tokenSymbol (Some m) = Normal (VString (slice0 8 m +:+ "...")).
Proof.
  intros H Hproto. unfold tokenSymbol, get_property. simpl. rewrite H.
  by rewrite bool_decide_eq_false_2.
Qed.

Lemma tokenSymbol_inherited (name : string) :
  name ∈ OBJECT_PROTOTYPE → tokenSymbol (Some name) = Normal (VInherited name).
Proof.
  intros H. unfold tokenSymbol, get_property. simpl.
  assert (Hnone : KNOWN_TOKENS !! name = None).
  { unfold OBJECT_PROTOTYPE in H.
    repeat (apply elem_of_cons in H as [-> | H]; [vm_compute; reflexivity |]).
    by apply elem_of_nil in H. }
  rewrite Hnone. by rewrite bool_decide_eq_true_2.
Qed.

(** C5, on a mint that is the name of an inherited property: the mint is
    not a key of the table and has 11 characters, yet the symbol is the
    inherited member and not the first 8 characters with the ellipsis. *)
Theorem tokenSymbol_constructor :
  KNOWN_TOKENS !! "constructor" = None ∧
  String.length "constructor" = 11%nat ∧
  tokenSymbol (Some "constructor") = Normal (VInherited "constructor") ∧
  tokenSymbol (Some "constructor") ≠ Normal (VString "construc...") ∧
  value_to_string (VInherited "constructor") = "function Object() { [native code] }".
Proof.
  split; [vm_compute; reflexivity |]. split; [reflexivity |].
  assert (H : tokenSymbol (Some "constructor") = Normal (VInherited "constructor")).
  { apply tokenSymbol_inherited. unfold OBJECT_PROTOTYPE. set_solver. }
  split; [exact H |]. split; [rewrite H; discriminate | reflexivity].
Qed.

(** ** The fee *)

(** The divisor is the integer 1000000000, held exactly. *)
Lemma LAMPORTS_PER_SOL_exact :
  Prim2SF LAMPORTS_PER_SOL = S754_finite false 8388608000000000 (-23) ∧
  8388608000000000 = 1000000000 * 2 ^ 23.
Proof. split; reflexivity. Qed.

(** C6: the fee of the summary is the binary64 quotient of the fee in
    lamports by 1e9, the division being that of IEEE 754 on the two
    operands; 5000000 lamports are shown as 0.005. *)
Theorem decoded_fee_is_quotient (event : Event.t) (decoded : Decoded.t) :
  decodeWebhookEvent event = Normal decoded →
  Decoded.fee decoded =
    match Event.fee event with
    | Some lamports => PrimFloat.div (Z2Num lamports) 1e9%float
    | None => PrimFloat.nan
    end ∧
  (∀ lamports, Event.fee event = Some lamports →
     Prim2SF (Decoded.fee decoded) =
     SF64div (Prim2SF (Z2Num lamports)) (S754_finite false 8388608000000000 (-23))) ∧
  (Event.fee event = Some 5000000 → Decoded.fee decoded = 0.005%float).
Proof.
  unfold decodeWebhookEvent.
  destruct (toISOString _); [| discriminate].
  destruct (decodeWithdrawal _); [| discriminate].
  intros [= <-]. simpl. split; [reflexivity |]. split.
  - intros lamports ->. simpl. rewrite div_spec.
    by rewrite (proj1 LAMPORTS_PER_SOL_exact).
  - intros ->. reflexivity.
Qed.

(** * Further properties of the code *)

(** ** Strings *)

Lemma append_nil_l (s : string) : "" +:+ s = s.
Proof. reflexivity. Qed.

Lemma append_cons (c : ascii) (s t : string) : String c s +:+ t = String c (s +:+ t).
Proof. reflexivity. Qed.

Lemma append_nil_r (s : string) : s +:+ "" = s.
Proof. induction s as [| c s IH]; [done |]. by rewrite append_cons, IH. Qed.

Lemma append_assoc (a b c : string) : (a +:+ b) +:+ c = a +:+ b +:+ c.
Proof. induction a as [| x a IH]; [done |]. by rewrite !append_cons, IH. Qed.

Lemma toLowerCase_append (a b : string) :
  toLowerCase (a +:+ b) = toLowerCase a +:+ toLowerCase b.
Proof.
  induction a as [| c a IH]; [done |].
  rewrite append_cons. simpl. by rewrite IH, append_cons.
Qed.

Lemma includes_here (needle pre post : string) :
  includes needle (pre +:+ needle +:+ post) = true.
Proof. apply includes_spec. by exists pre, post. Qed.

Lemma includes_append_r (needle a b : string) :
  includes needle b = true → includes needle (a +:+ b) = true.
Proof.
  rewrite !includes_spec. intros (pre & post & ->).
  exists (a +:+ pre), post. by rewrite append_assoc.
Qed.

Lemma includes_append_l (needle a b : string) :
  includes needle a = true → includes needle (a +:+ b) = true.
Proof.
  rewrite !includes_spec. intros (pre & post & ->).
  exists pre, (post +:+ b). by rewrite !append_assoc.
Qed.

Lemma includes_prefix (needle post : string) :
  includes needle (needle +:+ post) = true.
Proof. apply (includes_here needle "" post). Qed.

Lemma string_cons_inj (c : ascii) (s t : string) : String c s = String c t → s = t.
Proof. by intros [= ->]. Qed.

(** ** The filter *)

(** X1: the filter matches exactly the events whose lower-cased type or
    description holds the letters of withdraw in a row, so the word is
    found in any mix of cases and inside longer words. *)
Theorem withdrawal_filter_is_case_blind (event : Event.t) :
  (is_withdrawal event = true ↔
   (∃ pre post,
      toLowerCase (default "" (Event.type event)) = pre +:+ "withdraw" +:+ post) ∨
   (∃ pre post,
      toLowerCase (default "" (Event.description event)) = pre +:+ "withdraw" +:+ post)) ∧
  (∀ pre word post,
     toLowerCase word = "withdraw" →
     Event.type event = Some (pre +:+ word +:+ post) ∨
     Event.description event = Some (pre +:+ word +:+ post) →
     is_withdrawal event = true).
Proof.
  assert (Hiff : is_withdrawal event = true ↔
    (∃ pre post,
       toLowerCase (default "" (Event.type event)) = pre +:+ "withdraw" +:+ post) ∨
    (∃ pre post,
       toLowerCase (default "" (Event.description event)) = pre +:+ "withdraw" +:+ post)).
  { unfold is_withdrawal. by rewrite orb_true_iff, !lowered_default, !includes_spec. }
  split; [exact Hiff |].
  intros pre word post Hword Hfield. apply Hiff.
  destruct Hfield as [H | H]; [left | right]; rewrite H; simpl;
    exists (toLowerCase pre), (toLowerCase post);
    by rewrite !toLowerCase_append, Hword.
Qed.

(** ** The decoder's failures *)

Lemma newDate_valid (timestamp : option Z) :
  (∃ tv, newDate timestamp = Some tv) ↔
  ∃ ts, timestamp = Some ts ∧ -8640000000000 <= ts <= 8640000000000.
Proof.
  unfold newDate, MAX_TIME_VALUE. destruct timestamp as [ts |].
  - destruct (Z.leb_spec (Z.abs (ts * 1000)) 8640000000000000) as [H | H]; split.
    + intros _. exists ts. split; [done | lia].
    + intros _. by eexists.
    + intros [tv Htv]. discriminate.
    + intros (ts' & [= <-] & Hr). lia.
  - split; [intros [tv H]; discriminate | intros (ts & H & _); discriminate].
Qed.

(** X2: the decoder fails in two ways only, in this order: a [RangeError]
    when the timestamp is missing or further than 8640000000000 seconds
    from the epoch, and else a [TypeError] when the first transfer has no
    mint; in every other case it returns a summary. *)
Theorem decodeWebhookEvent_failures (event : Event.t) :
  let datable :=
    ∃ ts, Event.timestamp event = Some ts ∧ -8640000000000 <= ts <= 8640000000000 in
  let mintless :=
    ∃ first rest, Event.tokenTransfers event = Some (first :: rest) ∧
                  Transfer.mint first = None in
  (decodeWebhookEvent event = Throw (RangeError "Invalid time value") ↔ ¬ datable) ∧
  (decodeWebhookEvent event =
     Throw (TypeError "Cannot read properties of undefined (reading 'slice')") ↔
   datable ∧ mintless) ∧
  ((∃ decoded, decodeWebhookEvent event = Normal decoded) ↔ datable ∧ ¬ mintless).
Proof.
  intros datable mintless.
  pose proof (newDate_valid (Event.timestamp event)) as Hdate. fold datable in Hdate.
  assert (Hmint : mintless ↔
            ∃ first rest, default [] (Event.tokenTransfers event) = first :: rest ∧
                          Transfer.mint first = None).
  { unfold mintless. destruct (Event.tokenTransfers event) as [tt |]; simpl.
    - split; intros (f & r & H & Hm); exists f, r; split; congruence.
    - split; intros (f & r & H & Hm); discriminate. }
  clearbody datable mintless.
  unfold decodeWebhookEvent.
  destruct (newDate (Event.timestamp event)) as [tv |] eqn:Htv; simpl.
  - assert (Hd : datable) by (apply Hdate; eauto). clear Hdate.
    destruct (default [] (Event.tokenTransfers event)) as [| first rest]; simpl.
    { assert (Hml : ¬ mintless) by (rewrite Hmint; intros (f & r & H & _); discriminate).
      split; [| split]; split; intros H; try discriminate; try tauto; eauto. }
    destruct (Transfer.mint first) as [m |] eqn:Hm.
    + destruct (tokenSymbol_present m) as [symbol ->].
      assert (Hml : ¬ mintless)
        by (rewrite Hmint; intros (f & r & [= <- <-] & H); congruence).
      split; [| split]; split; intros H; try discriminate; try tauto; eauto.
    + assert (Hml : mintless) by (rewrite Hmint; by exists first, rest).
      change (tokenSymbol None) with
        (@Throw JsValue (TypeError "Cannot read properties of undefined (reading 'slice')")).
      split; [| split]; split; intros H; try discriminate; try tauto; eauto.
      destruct H as [decoded H]. discriminate.
  - assert (Hd : ¬ datable) by (intros H; apply Hdate in H as [tv H]; discriminate).
    split; [| split]; split; intros H; try discriminate; try tauto; eauto.
    destruct H as [decoded H]. discriminate.
Qed.

(** ** The token symbol *)

Lemma slice0_length (n : nat) (s : string) :
  String.length (slice0 n s) = Nat.min n (String.length s).
Proof.
  unfold slice0. revert s. induction n as [| n IH]; intros [| c s]; simpl; auto.
Qed.

Lemma slice0_prefix (n : nat) (s : string) : ∃ rest, s = slice0 n s +:+ rest.
Proof.
  unfold slice0. revert s. induction n as [| n IH]; intros [| c s]; simpl.
  - by exists "".
  - by exists (String c s).
  - by exists "".
  - destruct (IH s) as [rest H]. exists rest. by rewrite append_cons, <- H.
Qed.

Lemma length_append (a b : string) :
  String.length (a +:+ b) = (String.length a + String.length b)%nat.
Proof. induction a as [| c a IH]; [done |]. rewrite append_cons. simpl. by rewrite IH. Qed.

(** X3: a transfer without a mint makes the symbol lookup throw; with a
    mint it always gives a truthy value: the mapped symbol for a key of
    the table, and for a mint that is neither a key nor an inherited
    property name a cut of the mint, at most 8 characters of it followed
    by three dots. *)
Theorem tokenSymbol_resolution :
  tokenSymbol None =
    Throw (TypeError "Cannot read properties of undefined (reading 'slice')") ∧
  ∀ m : string,
    ∃ v, tokenSymbol (Some m) = Normal v ∧ truthy v = true ∧
      (∀ symbol, KNOWN_TOKENS !! m = Some symbol → v = VString symbol) ∧
      (KNOWN_TOKENS !! m = None → m ∉ OBJECT_PROTOTYPE →
       v = VString (slice0 8 m +:+ "...") ∧
       String.length (slice0 8 m +:+ "...") = (Nat.min 8 (String.length m) + 3)%nat ∧
       ∃ rest, m = slice0 8 m +:+ rest).
Proof.
  split; [reflexivity |]. intros m.
  destruct (KNOWN_TOKENS !! m) as [symbol |] eqn:Hlook.
  - exists (VString symbol). rewrite (tokenSymbol_mapped m symbol Hlook).
    split; [done |]. split.
    + destruct (KNOWN_TOKENS_lookup m symbol Hlook) as [-> | [-> | ->]]; reflexivity.
    + split; [by intros ? [= ->] | done].
  - destruct (decide (m ∈ OBJECT_PROTOTYPE)) as [Hin | Hout].
    + exists (VInherited m). rewrite (tokenSymbol_inherited m Hin).
      repeat split; try done.
    + exists (VString (slice0 8 m +:+ "...")). rewrite (tokenSymbol_unmapped m Hlook Hout).
      split; [done |]. split.
      * simpl. destruct (slice0 8 m); reflexivity.
      * split; [done |]. intros _ _. split; [done |]. split.
        -- rewrite length_append, slice0_length. reflexivity.
        -- apply slice0_prefix.
Qed.

(** ** The timestamp *)

Lemma whole_seconds (ts : Z) :
  ((ts * 1000) mod 86400000) mod 1000 = 0 ∧
  ((ts * 1000) mod 86400000 / 1000) mod 60 = ts mod 60 ∧
  ((ts * 1000) mod 86400000 / 60000) mod 60 = (ts / 60) mod 60 ∧
  (ts * 1000) mod 86400000 / 3600000 = (ts / 3600) mod 24.
Proof.
  repeat split; Z.div_mod_to_equations; lia.
Qed.

(** X4: the summary's timestamp is that of a whole second: it ends in
    [.000Z], and its hour, minute and second fields are those of the
    event's epoch seconds. *)
Theorem decoded_timestamp_whole_second (event : Event.t) (decoded : Decoded.t) (ts : Z) :
  decodeWebhookEvent event = Normal decoded →
  Event.timestamp event = Some ts →
  ∃ date,
    Decoded.timestamp decoded =
    date +:+ "T" +:+ pad2 ((ts / 3600) mod 24) +:+ ":" +:+ pad2 ((ts / 60) mod 60) +:+ ":" +:+
    pad2 (ts mod 60) +:+ ".000Z".
Proof.
  unfold decodeWebhookEvent, newDate. intros H Hts. rewrite Hts in H.
  destruct (Z.abs (ts * 1000) <=? MAX_TIME_VALUE); [| discriminate].
  simpl in H. destruct (decodeWithdrawal _); [| discriminate].
  injection H as <-. simpl. unfold iso_string.
  destruct (whole_seconds ts) as (Hms & Hs & Hm & Hh). rewrite Hms, Hs, Hm, Hh.
  destruct (civil_from_days _) as [[y m] d].
  exists (iso_year y +:+ "-" +:+ pad2 m +:+ "-" +:+ pad2 d).
  by rewrite !append_assoc.
Qed.

(** ** The message *)

Lemma includes_at_front (needle s post : string) :
  s = needle +:+ post → includes needle s = true.
Proof. intros ->. apply includes_prefix. Qed.

(** Looks for the needle at the front of each tail of a chain of appends. *)
Ltac find_part :=
  rewrite ?append_assoc;
  repeat first
    [ solve [ eapply includes_at_front; rewrite ?append_assoc; reflexivity ]
    | apply includes_append_r ].

(** X5: the message holds the signature in a code block and in the
    explorer link, and for a summary with a detail the token, the amount
    and both accounts, each exactly as given, with no character of them
    escaped; without a detail it is the header and the transaction block
    alone. *)
Theorem message_quotes_fields_verbatim (decoded : Decoded.t) :
  let message := formatTelegramMessage decoded in
  let sig := interpolate (Decoded.signature decoded) in
  includes ("<code>" +:+ sig +:+ "</code>") message = true ∧
  includes ("<a href=" +:+ dquote +:+ "https://solscan.io/tx/" +:+ sig +:+ dquote +:+
            ">View on Solscan</a>") message = true ∧
  (∀ w, Decoded.withdrawal decoded = Some w →
     includes ("<b>" +:+ value_to_string (Withdrawal.token w) +:+ "</b>") message = true ∧
     includes ("From: <code>" +:+ interpolate (Withdrawal.from w) +:+ "</code>") message = true ∧
     includes ("To: <code>" +:+ interpolate (Withdrawal.to w) +:+ "</code>") message = true ∧
     (∀ a, Withdrawal.amount w = Some a →
        includes ("Amount: " +:+ Number_toString a +:+ nl) message = true)) ∧
  (Decoded.withdrawal decoded = None →
   message =
   "🔔 <b>New Withdrawal Detected</b>" +:+ nl +:+ nl +:+ nl +:+
   "🔗 <b>Transaction:</b>" +:+ nl +:+ "<code>" +:+ sig +:+ "</code>" +:+ nl +:+ nl +:+
   "<a href=" +:+ dquote +:+ "https://solscan.io/tx/" +:+ sig +:+ dquote +:+
   ">View on Solscan</a>").
Proof.
  intros message sig. subst message. unfold formatTelegramMessage.
  split; [| split; [| split]].
  - cbv zeta. find_part.
  - cbv zeta. find_part.
  - intros w ->. cbv beta iota zeta. repeat split; [| | | intros a ->]; find_part.
  - intros ->. cbv beta iota zeta. by rewrite !append_assoc.
Qed.

(** ** The response *)

Lemma loop_never_performs {D} (p : Action → bool) (body : Event.t → M D unit) :
  (∀ event st, performs p (trace (body event st)) = false) →
  ∀ events st, performs p (trace (for_of events body st)) = false.
Proof.
  intros Hbody events. induction events as [| event rest IH]; intros st; [reflexivity |].
  rewrite for_of_cons. pose proof (Hbody event st) as H.
  destruct (outcome (body event st)).
  - by rewrite trace_after, performs_app, performs_rescope, H, IH.
  - by rewrite trace_run, performs_rescope.
Qed.

Lemma memory_event_no_ack (event : Event.t) (st : State (list (option string))) :
  performs is_ack (trace (memory_event event st)) = false.
Proof. memory_cases event st; observe; reflexivity. Qed.

Lemma redis_event_no_ack (event : Event.t) (st : State (gmap string string)) :
  performs is_ack (trace (redis_event event st)) = false.
Proof. redis_cases event st; observe; reflexivity. Qed.

(** X6: each handler answers a request at most once, with 200 and
    [{received: true}]: the in-memory one as its second action, before it
    looks at any event, the Redis one as its last action and always, the
    one without deduplication as its last action and only when its loop
    does not throw. *)
Theorem handlers_respond_once (payload : Payload) :
  (∀ st, ∃ rest,
     trace (webhook_memory payload st) =
     (OfRequest, ConsoleLog "📨 Webhook received from Helius") :: ack :: rest ∧
     performs is_ack rest = false) ∧
  (∀ st, ∃ before,
     outcome (webhook_redis payload st) = Normal tt ∧
     trace (webhook_redis payload st) = before ++ [ack] ∧
     performs is_ack before = false) ∧
  (∀ st,
     (∃ before,
        outcome (webhook_nodedup payload st) = Normal tt ∧
        trace (webhook_nodedup payload st) = before ++ [ack] ∧
        performs is_ack before = false) ∨
     (∃ error,
        outcome (webhook_nodedup payload st) = Throw error ∧
        performs is_ack (trace (webhook_nodedup payload st)) = false)).
Proof.
  split; [| split]; intros st.
  - rewrite webhook_memory_run, trace_after. eexists. split; [reflexivity |].
    apply loop_never_performs, memory_event_no_ack.
  - rewrite webhook_redis_run, outcome_run, trace_run.
    exists ((OfRequest, ConsoleLog "📨 Webhook received from Helius") ::
            trace (for_of (events_of payload) redis_event st)).
    split; [done |]. split; [done |]. simpl.
    apply loop_never_performs, redis_event_no_ack.
  - rewrite webhook_nodedup_run.
    pose proof (loop_never_performs is_ack nodedup_event nodedup_event_no_ack
                  (events_of payload) st) as Hloop.
    destruct (outcome (for_of (events_of payload) nodedup_event st)) as [[] | error].
    + left. eexists (_ :: _ :: _). rewrite outcome_run, trace_run.
      split; [done |]. split; [reflexivity |]. done.
    + right. exists error. rewrite outcome_run, trace_run. done.
Qed.

(** ** The handler without deduplication *)

Lemma nodedup_event_delivers (event : Event.t) (st : State unit) (decoded : Decoded.t) :
  is_withdrawal event = true → decodeWebhookEvent event = Normal decoded →
  outcome (nodedup_event event st) = Normal tt ∧
  attempts (trace (nodedup_event event st)) = 1%nat.
Proof.
  intros Hwd Hdec. rewrite nodedup_event_run, Hwd, notify_run, Hdec. observe. done.
Qed.

Lemma nodedup_event_skips (event : Event.t) (st : State unit) :
  is_withdrawal event = false →
  outcome (nodedup_event event st) = Normal tt ∧
  attempts (trace (nodedup_event event st)) = 0%nat.
Proof. intros Hwd. rewrite nodedup_event_run, Hwd. done. Qed.

(** X7: without deduplication, when every matched event of the payload can
    be decoded, the handler completes and attempts one delivery for each
    matched event, repeated signatures included: a signature is delivered
    as many times as matched events carry it. *)
Theorem nodedup_delivers_every_match (payload : Payload) (st : State unit) :
  (∀ event, event ∈ events_of payload → is_withdrawal event = true →
            ∃ decoded, decodeWebhookEvent event = Normal decoded) →
  outcome (webhook_nodedup payload st) = Normal tt ∧
  ∀ sig,
    deliveries sig (trace (webhook_nodedup payload st)) =
    length (List.filter
              (fun event => is_withdrawal event && bool_decide (Event.signature event = sig))
              (events_of payload)).
Proof.
  intros Hdec.
  assert (Hloop : ∀ events st',
    (∀ event, event ∈ events → is_withdrawal event = true →
              ∃ decoded, decodeWebhookEvent event = Normal decoded) →
    outcome (for_of events nodedup_event st') = Normal tt ∧
    ∀ sig,
      deliveries sig (trace (for_of events nodedup_event st')) =
      length (List.filter
                (fun event => is_withdrawal event && bool_decide (Event.signature event = sig))
                events)).
  { clear. intros events. induction events as [| event rest IH]; intros st' Hdec.
    { done. }
    assert (Hhead : outcome (nodedup_event event st') = Normal tt ∧
                    attempts (trace (nodedup_event event st')) =
                    if is_withdrawal event then 1%nat else 0%nat).
    { destruct (is_withdrawal event) eqn:Hwd.
      - destruct (Hdec event) as [decoded Hd]; [left | done |].
        by apply (nodedup_event_delivers event st' decoded).
      - by apply nodedup_event_skips. }
    destruct Hhead as [Hout Hatt].
    destruct (IH (final (nodedup_event event st'))) as [IHout IHdel].
    { intros e He. apply Hdec. by right. }
    rewrite for_of_cons, Hout, outcome_after, trace_after. split; [done |].
    intros sig. rewrite deliveries_app, deliveries_rescope, IHdel, Hatt. simpl.
    destruct (is_withdrawal event); simpl; [| by case_bool_decide].
    case_bool_decide; simpl; lia. }
  destruct (Hloop (events_of payload) st Hdec) as [Hout Hdel].
  rewrite webhook_nodedup_run, Hout, outcome_run, trace_run. split; [done |].
  intros sig. rewrite !deliveries_request, deliveries_app, Hdel. simpl. lia.
Qed.

(** ** New signatures under the deduplicating handlers *)

Lemma memory_event_fresh (event : Event.t) (st : State (list (option string))) :
  Event.signature event ∉ store st →
  (is_withdrawal event = true → ∃ decoded, decodeWebhookEvent event = Normal decoded) →
  outcome (memory_event event st) = Normal tt ∧
  store (final (memory_event event st)) = store st ++ [Event.signature event] ∧
  attempts (trace (memory_event event st)) = if is_withdrawal event then 1%nat else 0%nat.
Proof.
  intros Hnew Hcan. pose proof Hnew as Hno. apply set_has_false in Hno.
  assert (Hadd : set_add (Event.signature event) (store st) =
                 store st ++ [Event.signature event]) by (unfold set_add; by rewrite Hno).
  memory_cases event st; try congruence; observe; rewrite ?Hadd; try done.
  all: destruct Hcan as [d Hd]; [done | congruence].
Qed.

Lemma redis_event_fresh (event : Event.t) (st : State (gmap string string)) :
  (∀ n, redis_unreachable n = false) →
  ¬ redis_marked (store st) (Event.signature event) →
  (is_withdrawal event = true → ∃ decoded, decodeWebhookEvent event = Normal decoded) →
  outcome (redis_event event st) = Normal tt ∧
  store (final (redis_event event st)) =
    <[cacheKey (Event.signature event) := MARKER]> (store st) ∧
  attempts (trace (redis_event event st)) = if is_withdrawal event then 1%nat else 0%nat.
Proof.
  intros Hup Hnew Hcan. unfold redis_marked in Hnew.
  pose proof (Hup (redis_calls st)) as H0. pose proof (Hup (S (redis_calls st))) as H1.
  redis_cases event st; try congruence; observe; rewrite <- ?Hsig; try done.
  all: destruct Hcan as [d Hd]; [done | congruence].
Qed.

(** X8: a batch of events with pairwise different signatures, none of them
    in the in-memory set, whose matched events can be decoded, is
    processed to its end: every matched event is delivered exactly once,
    no other event is delivered, and the set gains the signatures in the
    order of the batch. *)
Theorem memory_delivers_new_signatures (payload : Payload)
    (st : State (list (option string))) :
  NoDup (map Event.signature (events_of payload)) →
  (∀ event, event ∈ events_of payload → Event.signature event ∉ store st) →
  (∀ event, event ∈ events_of payload → is_withdrawal event = true →
            ∃ decoded, decodeWebhookEvent event = Normal decoded) →
  outcome (webhook_memory payload st) = Normal tt ∧
  store (final (webhook_memory payload st)) =
    store st ++ map Event.signature (events_of payload) ∧
  (∀ event, event ∈ events_of payload →
     deliveries (Event.signature event) (trace (webhook_memory payload st)) =
     if is_withdrawal event then 1%nat else 0%nat) ∧
  (∀ sig, sig ∉ map Event.signature (events_of payload) →
     deliveries sig (trace (webhook_memory payload st)) = 0%nat).
Proof.
  assert (Hloop : ∀ events st',
    NoDup (map Event.signature events) →
    (∀ event, event ∈ events → Event.signature event ∉ store st') →
    (∀ event, event ∈ events → is_withdrawal event = true →
              ∃ decoded, decodeWebhookEvent event = Normal decoded) →
    outcome (for_of events memory_event st') = Normal tt ∧
    store (final (for_of events memory_event st')) = store st' ++ map Event.signature events ∧
    (∀ event, event ∈ events →
       deliveries (Event.signature event) (trace (for_of events memory_event st')) =
       if is_withdrawal event then 1%nat else 0%nat) ∧
    (∀ sig, sig ∉ map Event.signature events →
       deliveries sig (trace (for_of events memory_event st')) = 0%nat)).
  { clear. intros events. induction events as [| head rest IH]; intros st' Hnd Hnew Hdec.
    { simpl. rewrite app_nil_r. repeat split; try done. intros e He. by apply elem_of_nil in He. }
    simpl in Hnd. apply NoDup_cons in Hnd as [Hhead Hnd].
    destruct (memory_event_fresh head st') as (Hout & Hstore & Hatt).
    { apply Hnew. left. }
    { apply Hdec. left. }
    destruct (IH (final (memory_event head st')) Hnd) as (IHout & IHstore & IHin & IHout').
    { intros e He. rewrite Hstore. intros Hin. apply elem_of_app in Hin as [Hin | Hin].
      - apply (Hnew e); [by right | done].
      - apply list_elem_of_singleton in Hin. apply Hhead. rewrite <- Hin.
        apply list_elem_of_fmap. by exists e. }
    { intros e He. apply Hdec. by right. }
    rewrite for_of_cons, Hout, outcome_after, final_after, trace_after.
    split; [done |]. split; [by rewrite IHstore, Hstore, <- app_assoc |]. split.
    - intros e He. rewrite deliveries_app, deliveries_rescope.
      apply elem_of_cons in He as [-> | He].
      + rewrite bool_decide_eq_true_2 by done. rewrite Hatt, IHout' by done. lia.
      + rewrite bool_decide_eq_false_2, IHin by (try done; intros Heq; apply Hhead;
          rewrite Heq; apply list_elem_of_fmap; by exists e). done.
    - intros sig Hsig. rewrite deliveries_app, deliveries_rescope. simpl in Hsig.
      apply not_elem_of_cons in Hsig as [Hne Hsig].
      rewrite bool_decide_eq_false_2, IHout' by done. done. }
  intros Hnd Hnew Hdec.
  destruct (Hloop (events_of payload) st Hnd Hnew Hdec) as (Hout & Hstore & Hin & Hothers).
  rewrite webhook_memory_run, outcome_after, final_after.
  split; [done |]. split; [done |]. split.
  - intros e He. rewrite trace_after. simpl. by apply Hin.
  - intros sig Hsig. rewrite trace_after. simpl. by apply Hothers.
Qed.

(** X9: with the Redis store within reach, a batch of events with pairwise
    different keys, none of them marked, whose matched events can be
    decoded: every matched event is delivered exactly once, no other event
    is delivered, and every signature of the batch is marked at the end. *)
Theorem redis_delivers_new_signatures (payload : Payload)
    (st : State (gmap string string)) :
  (∀ n, redis_unreachable n = false) →
  NoDup (map (fun event => cacheKey (Event.signature event)) (events_of payload)) →
  (∀ event, event ∈ events_of payload → ¬ redis_marked (store st) (Event.signature event)) →
  (∀ event, event ∈ events_of payload → is_withdrawal event = true →
            ∃ decoded, decodeWebhookEvent event = Normal decoded) →
  (∀ event, event ∈ events_of payload →
     deliveries (Event.signature event) (trace (webhook_redis payload st)) =
     (if is_withdrawal event then 1%nat else 0%nat) ∧
     redis_marked (store (final (webhook_redis payload st))) (Event.signature event)) ∧
  (∀ sig, sig ∉ map Event.signature (events_of payload) →
     deliveries sig (trace (webhook_redis payload st)) = 0%nat).
Proof.
  intros Hup.
  assert (Hloop : ∀ events st',
    NoDup (map (fun event => cacheKey (Event.signature event)) events) →
    (∀ event, event ∈ events → ¬ redis_marked (store st') (Event.signature event)) →
    (∀ event, event ∈ events → is_withdrawal event = true →
              ∃ decoded, decodeWebhookEvent event = Normal decoded) →
    (∀ event, event ∈ events →
       deliveries (Event.signature event) (trace (for_of events redis_event st')) =
       (if is_withdrawal event then 1%nat else 0%nat) ∧
       redis_marked (store (final (for_of events redis_event st'))) (Event.signature event)) ∧
    (∀ sig, sig ∉ map Event.signature events →
       deliveries sig (trace (for_of events redis_event st')) = 0%nat)).
  { intros events. induction events as [| head rest IH]; intros st' Hnd Hnew Hdec.
    { split; [| done]. intros e He. by apply elem_of_nil in He. }
    simpl in Hnd. apply NoDup_cons in Hnd as [Hhead Hnd].
    destruct (redis_event_fresh head st' Hup) as (Hout & Hstore & Hatt).
    { apply Hnew. left. }
    { apply Hdec. left. }
    assert (Hother : ∀ e, e ∈ rest →
              cacheKey (Event.signature head) ≠ cacheKey (Event.signature e)).
    { intros e He Heq. apply Hhead. rewrite Heq.
      apply (list_elem_of_fmap_2 (fun event => cacheKey (Event.signature event))). done. }
    destruct (IH (final (redis_event head st')) Hnd) as (IHin & IHout').
    { intros e He. rewrite Hstore. unfold redis_marked.
      rewrite lookup_insert_ne by by apply Hother.
      apply (Hnew e). by right. }
    { intros e He. apply Hdec. by right. }
    rewrite for_of_cons, Hout, final_after, trace_after. split.
    - intros e He. rewrite deliveries_app, deliveries_rescope.
      apply elem_of_cons in He as [-> | He].
      + rewrite bool_decide_eq_true_2 by done. split.
        * destruct (decide (Event.signature head ∈ map Event.signature rest)) as [Hin | Hout'].
          -- apply list_elem_of_fmap in Hin as (e & Heq & He).
             exfalso. apply (Hother e He). by rewrite Heq.
          -- rewrite Hatt, IHout' by done. lia.
        * destruct (redis_loop (Event.signature head) rest (final (redis_event head st')))
            as (_ & _ & _ & Hkeep).
          apply Hkeep. rewrite Hstore. apply redis_marked_insert_same.
      + destruct (IHin e He) as [Hdel Hmark]. split; [| done].
        rewrite bool_decide_eq_false_2, Hdel; [done |].
        intros Heq. apply (Hother e He). by rewrite Heq.
    - intros sig Hsig. rewrite deliveries_app, deliveries_rescope. simpl in Hsig.
      apply not_elem_of_cons in Hsig as [Hne Hsig].
      rewrite bool_decide_eq_false_2, IHout' by done. done. }
  intros Hnd Hnew Hdec.
  destruct (Hloop (events_of payload) st Hnd Hnew Hdec) as (Hin & Hothers).
  split.
  - intros e He. destruct (webhook_redis_deliveries (Event.signature e) payload st) as [-> ->].
    by apply Hin.
  - intros sig Hsig. destruct (webhook_redis_deliveries sig payload st) as [-> _].
    by apply Hothers.
Qed.

(** ** Withdrawals that cannot be decoded *)

(** X10: in the in-memory handler a matched event with a new signature
    that the decoder rejects is first recorded, then ends the request with
    the decoder's error: nothing is delivered, the events behind it are
    not looked at, and any later request that finds the signature in the
    set delivers nothing for it. *)
Theorem memory_undecodable_is_recorded (event : Event.t) (rest : list Event.t)
    (error : JsError) (st : State (list (option string))) :
  Event.signature event ∉ store st →
  is_withdrawal event = true →
  decodeWebhookEvent event = Throw error →
  webhook_memory (Batch (event :: rest)) st =
  (Throw error,
   mkState (store st ++ [Event.signature event]) (fetches st) (redis_calls st),
   [ (OfRequest, ConsoleLog "📨 Webhook received from Helius");
     ack;
     (OfEvent (Event.signature event), ConsoleLog "💸 Withdrawal detected!");
     (OfEvent (Event.signature event), SetAdd (Event.signature event));
     (OfEvent (Event.signature event), CallDecode event) ]) ∧
  ∀ later st',
    Event.signature event ∈ store st' →
    deliveries (Event.signature event) (trace (webhook_memory later st')) = 0%nat.
Proof.
  intros Hnew Hwd Hthrow. split.
  - apply set_has_false in Hnew.
    rewrite webhook_memory_run. simpl events_of.
    rewrite for_of_cons, memory_event_run, Hnew, Hwd, notify_run, Hthrow.
    unfold after, outcome, final, trace, added, set_add. simpl. by rewrite Hnew.
  - intros later st' Hin.
    destruct (webhook_memory_deliveries (Event.signature event) later st') as [-> _].
    by apply memory_loop.
Qed.

(** X11: in the Redis handler, with the store within reach, a matched
    event with an unmarked signature that the decoder rejects is marked,
    the error is logged in place of a delivery, and the loop goes on with
    the events behind it; a later request that finds the mark delivers
    nothing for it. *)
Theorem redis_undecodable_is_marked (event : Event.t) (rest : list Event.t)
    (error : JsError) (st : State (gmap string string)) :
  redis_unreachable (redis_calls st) = false →
  redis_unreachable (S (redis_calls st)) = false →
  ¬ redis_marked (store st) (Event.signature event) →
  is_withdrawal event = true →
  decodeWebhookEvent event = Throw error →
  for_of (event :: rest) redis_event st =
  after [ (OfEvent (Event.signature event), RedisGet (cacheKey (Event.signature event)));
          (OfEvent (Event.signature event), ConsoleLog "💸 Withdrawal detected!");
          (OfEvent (Event.signature event),
           RedisSet (cacheKey (Event.signature event)) MARKER TTL_SECONDS);
          (OfEvent (Event.signature event), CallDecode event);
          (OfEvent (Event.signature event),
           ConsoleError ("❌ Error processing transaction: " +:+ error_message error)) ]
        (for_of rest redis_event (marked (Event.signature event) (asked st))) ∧
  ∀ later st',
    redis_marked (store st') (Event.signature event) →
    deliveries (Event.signature event) (trace (webhook_redis later st')) = 0%nat.
Proof.
  intros Hget Hset Hnew Hwd Hthrow. split.
  - unfold redis_marked in Hnew. apply not_true_is_false in Hnew.
    rewrite for_of_cons, redis_event_run, Hget, Hnew, Hwd, Hset, Hthrow. reflexivity.
  - intros later st' Hin.
    destruct (webhook_redis_deliveries (Event.signature event) later st') as [-> _].
    by apply redis_loop.
Qed.

(** ** Events without a signature *)

(** X12: once [undefined] is in the in-memory set, a request whose first
    event has no signature ends there with a [TypeError] from the
    duplicate log line: the set is as before and no event of the batch is
    processed; the Redis handler catches the same error, logs it and goes
    on with the batch. *)
Theorem unsigned_duplicate_stops_memory_batch (event : Event.t) (rest : list Event.t) :
  Event.signature event = None →
  (∀ st, None ∈ store st →
     webhook_memory (Batch (event :: rest)) st =
     (Throw (TypeError "Cannot read properties of undefined (reading 'slice')"), st,
      [(OfRequest, ConsoleLog "📨 Webhook received from Helius"); ack])) ∧
  (∀ st, redis_unreachable (redis_calls st) = false → redis_marked (store st) None →
     for_of (event :: rest) redis_event st =
     after [ (OfEvent None, RedisGet "tx:undefined");
             (OfEvent None,
              ConsoleError ("❌ Error processing transaction: " +:+
                            "Cannot read properties of undefined (reading 'slice')")) ]
           (for_of rest redis_event (asked st))).
Proof.
  intros Hsig. split.
  - intros st Hin. apply set_has_true in Hin.
    rewrite webhook_memory_run. simpl events_of.
    rewrite for_of_cons, memory_event_run, Hsig, Hin. by destruct st.
  - intros st Hget Hmark. unfold redis_marked in Hmark.
    rewrite for_of_cons, redis_event_run, Hsig, Hget, Hmark. reflexivity.
Qed.

(** ** The Redis keys *)

(** X13: two signatures share a Redis key exactly when they are equal or
    one is missing and the other is the text undefined; so the Redis
    handler takes an event signed undefined for a duplicate of one with no
    signature, which the in-memory set keeps apart. *)
Theorem cacheKey_collisions (sig1 sig2 : option string) :
  (cacheKey sig1 = cacheKey sig2 ↔
   sig1 = sig2 ∨
   (sig1 = None ∧ sig2 = Some "undefined") ∨
   (sig1 = Some "undefined" ∧ sig2 = None)) ∧
  (∀ db, redis_marked db None ↔ redis_marked db (Some "undefined")) ∧
  (set_has (Some "undefined") [None] = false).
Proof.
  split; [| split; [done | done]].
  unfold cacheKey. split.
  - intros H. do 3 apply string_cons_inj in H.
    destruct sig1 as [s1 |], sig2 as [s2 |]; simpl in H; subst; auto.
  - intros [-> | [[-> ->] | [-> ->]]]; reflexivity.
Qed.

(** ** Network calls *)

Ltac project := rewrite ?final_after, ?trace_after, ?final_run, ?trace_run.

Lemma attempts_app (t1 t2 : list Entry) :
  attempts (t1 ++ t2) = (attempts t1 + attempts t2)%nat.
Proof. unfold attempts. by rewrite List.filter_app, length_app. Qed.

Lemma attempts_rescope (sc : Scope) (t : list Entry) : attempts (rescope sc t) = attempts t.
Proof.
  unfold attempts, rescope. induction t as [| e t IH]; simpl; [done |].
  destruct (is_delivery e.2); simpl; by rewrite IH.
Qed.

Lemma loop_fetches {D} (body : Event.t → M D unit) :
  (∀ event st, fetches (final (body event st)) =
               (fetches st + attempts (trace (body event st)))%nat) →
  ∀ events st, fetches (final (for_of events body st)) =
               (fetches st + attempts (trace (for_of events body st)))%nat.
Proof.
  intros Hbody events. induction events as [| event rest IH]; intros st.
  { unfold for_of, ret, final, trace, attempts. simpl. lia. }
  rewrite for_of_cons. pose proof (Hbody event st) as H.
  destruct (outcome (body event st)).
  - rewrite final_after, trace_after, attempts_app, attempts_rescope, IH, H. lia.
  - by rewrite final_run, trace_run, attempts_rescope.
Qed.

Lemma nodedup_event_fetches (event : Event.t) (st : State unit) :
  fetches (final (nodedup_event event st)) =
  (fetches st + attempts (trace (nodedup_event event st)))%nat.
Proof.
  rewrite nodedup_event_run. destruct (is_withdrawal event); [| project; observe; lia].
  rewrite notify_run. destruct (decodeWebhookEvent event); project; observe; lia.
Qed.

Lemma memory_event_fetches (event : Event.t) (st : State (list (option string))) :
  fetches (final (memory_event event st)) =
  (fetches st + attempts (trace (memory_event event st)))%nat.
Proof. memory_cases event st; project; observe; lia. Qed.

Lemma redis_event_fetches (event : Event.t) (st : State (gmap string string)) :
  fetches (final (redis_event event st)) =
  (fetches st + attempts (trace (redis_event event st)))%nat.
Proof. redis_cases event st; project; observe; lia. Qed.

Lemma redis_event_calls (event : Event.t) (st : State (gmap string string)) :
  (redis_calls st + 1 ≤ redis_calls (final (redis_event event st)) ≤ redis_calls st + 2)%nat.
Proof. redis_cases event st; project; simpl; lia. Qed.

(** X14: every handler makes one request to the chat API per delivery it
    attempts and no other, whether or not the request ends with an error;
    the Redis handler sends the store one command at least and two at
    most for each event of the payload. *)
Theorem network_calls_per_request (payload : Payload) :
  (∀ st, fetches (final (webhook_nodedup payload st)) =
         (fetches st + attempts (trace (webhook_nodedup payload st)))%nat) ∧
  (∀ st, fetches (final (webhook_memory payload st)) =
         (fetches st + attempts (trace (webhook_memory payload st)))%nat) ∧
  (∀ st, fetches (final (webhook_redis payload st)) =
         (fetches st + attempts (trace (webhook_redis payload st)))%nat ∧
         (redis_calls st + length (events_of payload)
          ≤ redis_calls (final (webhook_redis payload st))
          ≤ redis_calls st + 2 * length (events_of payload))%nat).
Proof.
  split; [| split]; intros st.
  - rewrite webhook_nodedup_run.
    pose proof (loop_fetches nodedup_event nodedup_event_fetches (events_of payload) st) as H.
    destruct (outcome (for_of (events_of payload) nodedup_event st));
      rewrite final_run, trace_run, H;
      change (?a :: ?b :: ?t) with ([a; b] ++ t);
      rewrite !attempts_app; unfold attempts; simpl; lia.
  - rewrite webhook_memory_run, final_after, trace_after, attempts_app.
    rewrite (loop_fetches memory_event memory_event_fetches).
    set (n := attempts (trace (for_of (events_of payload) memory_event st))).
    unfold attempts. simpl. lia.
  - rewrite webhook_redis_run, final_run, trace_run. split.
    + rewrite (loop_fetches redis_event redis_event_fetches).
      change (?a :: ?t ++ ?u) with ([a] ++ t ++ u).
      rewrite !attempts_app.
      set (n := attempts (trace (for_of (events_of payload) redis_event st))).
      unfold attempts. simpl. lia.
    + generalize (events_of payload) as events. intros events. revert st.
      induction events as [| event rest IH]; intros st;
        [unfold for_of, ret, final; simpl; lia |].
      rewrite for_of_cons, redis_event_normal, final_after.
      pose proof (redis_event_calls event st). specialize (IH (final (redis_event event st))).
      simpl length. lia.
Qed.

(** ** What the handlers do to the stores *)

Lemma memory_event_extends (event : Event.t) (st : State (list (option string))) :
  store (final (memory_event event st)) = store st ∨
  ((Event.signature event ∉ store st) ∧
   store (final (memory_event event st)) = store st ++ [Event.signature event]).
Proof.
  destruct (set_has (Event.signature event) (store st)) eqn:Hin.
  - left. memory_cases event st; try congruence; done.
  - right. apply set_has_false in Hin. split; [done |].
    assert (Hadd : set_add (Event.signature event) (store st) =
                   store st ++ [Event.signature event]).
    { unfold set_add. apply set_has_false in Hin. by rewrite Hin. }
    apply set_has_false in Hin.
    memory_cases event st; try congruence; simpl; by rewrite Hadd.
Qed.

(** X15: the in-memory handler only ever appends to the set: after any
    request, failed or not, the set is the old one followed by signatures
    of the payload that were not in it, at most one per event, and it is
    still free of duplicates; nothing is removed or moved. *)
Theorem memory_handler_appends (payload : Payload) (st : State (list (option string))) :
  ∃ added,
    store (final (webhook_memory payload st)) = store st ++ added ∧
    (∀ sig, sig ∈ added →
       (sig ∉ store st) ∧ sig ∈ map Event.signature (events_of payload)) ∧
    (length added ≤ length (events_of payload))%nat ∧
    (NoDup (store st) → NoDup (store st ++ added)).
Proof.
  rewrite webhook_memory_run, final_after.
  assert (Hloop : ∀ events st',
    ∃ added,
      store (final (for_of events memory_event st')) = store st' ++ added ∧
      (∀ sig, sig ∈ added → (sig ∉ store st') ∧ sig ∈ map Event.signature events) ∧
      (length added ≤ length events)%nat).
  { clear. intros events. induction events as [| event rest IH]; intros st.
    { exists []. unfold for_of, ret, final. simpl. rewrite app_nil_r.
      split; [done |]. split; [| lia]. intros sig H. by apply elem_of_nil in H. }
    rewrite for_of_cons.
    assert (Hstep : ∃ one, store (final (memory_event event st)) = store st ++ one ∧
              (∀ sig, sig ∈ one → (sig ∉ store st) ∧ sig = Event.signature event) ∧
              (length one ≤ 1)%nat).
    { destruct (memory_event_extends event st) as [H | [Hnew H]].
      - exists []. rewrite app_nil_r. split; [done |]. split; [| simpl; lia].
        intros sig Hsig. by apply elem_of_nil in Hsig.
      - exists [Event.signature event]. split; [done |]. split; [| simpl; lia].
        intros sig Hsig. apply list_elem_of_singleton in Hsig. by subst. }
    destruct Hstep as (one & Hone & Hin & Hlen).
    destruct (outcome (memory_event event st)).
    - rewrite final_after.
      destruct (IH (final (memory_event event st))) as (more & Hmore & Hin' & Hlen').
      exists (one ++ more). rewrite Hmore, Hone, <- app_assoc.
      split; [done |]. split.
      + intros sig Hsig. apply elem_of_app in Hsig as [Hsig | Hsig].
        * destruct (Hin sig Hsig) as [Hnew ->]. split; [done |]. simpl. left.
        * destruct (Hin' sig Hsig) as [Hnew Hev]. split.
          -- intros Hold. apply Hnew. rewrite Hone. apply elem_of_app. by left.
          -- simpl. by right.
      + rewrite length_app. simpl. lia.
    - rewrite final_run. exists one. rewrite Hone.
      split; [done |]. split.
      + intros sig Hsig. destruct (Hin sig Hsig) as [Hnew ->]. split; [done |]. simpl. left.
      + simpl. lia. }
  destruct (Hloop (events_of payload) st) as (added & Hadded & Hin & Hlen).
  exists added. split; [done |]. split; [done |]. split; [done |].
  intros Hnd. rewrite <- Hadded. by apply memory_loop_NoDup.
Qed.

Lemma redis_event_writes (event : Event.t) (st : State (gmap string string)) (k : string) :
  store (final (redis_event event st)) !! k = store st !! k ∨
  (k = cacheKey (Event.signature event) ∧
   store (final (redis_event event st)) !! k = Some MARKER).
Proof.
  redis_cases event st; simpl; rewrite <- ?Hsig; auto;
    destruct (decide (cacheKey (Event.signature event) = k)) as [<- | Hne];
    rewrite ?lookup_insert_eq, ?lookup_insert_ne by done; auto.
Qed.

(** X16: the Redis handler writes nothing but its marker, under keys of
    the payload's events: after a request every key of the store holds
    what it held before, or holds the marker and is the key of an event of
    the payload; no key is deleted. *)
Theorem redis_handler_writes_markers (payload : Payload) (st : State (gmap string string))
    (k : string) :
  store (final (webhook_redis payload st)) !! k = store st !! k ∨
  (store (final (webhook_redis payload st)) !! k = Some "1" ∧
   ∃ event, event ∈ events_of payload ∧ k = "tx:" +:+ interpolate (Event.signature event)).
Proof.
  rewrite webhook_redis_run, final_run.
  generalize (events_of payload) as events. intros events. revert st.
  induction events as [| event rest IH]; intros st; [by left |].
  rewrite for_of_cons, redis_event_normal, final_after.
  destruct (IH (final (redis_event event st))) as [Hsame | (Hmark & e & He & Hk)].
  - rewrite Hsame. destruct (redis_event_writes event st k) as [H | [Hk H]]; [by left |].
    right. split; [done |]. exists event. split; [left | done].
  - right. split; [done |]. exists e. split; [by right | done].
Qed.

(** ** Batches and requests *)

Lemma after_after {D A} (t1 t2 : list Entry) (run : Completion A * State D * list Entry) :
  after t1 (after t2 run) = after (t1 ++ t2) run.
Proof. unfold after, outcome, final, trace. simpl. by rewrite app_assoc. Qed.

Lemma after_nil {D A} (run : Completion A * State D * list Entry) : after [] run = run.
Proof. by destruct run as [[r st] t]. Qed.

Lemma for_of_app {D} (body : Event.t → M D unit) (first second : list Event.t)
    (st : State D) :
  for_of (first ++ second) body st =
  match outcome (for_of first body st) with
  | Normal _ =>
      after (trace (for_of first body st)) (for_of second body (final (for_of first body st)))
  | Throw _ => for_of first body st
  end.
Proof.
  revert st. induction first as [| event rest IH]; intros st.
  { simpl app. change (for_of [] body st) with (@Normal unit tt, st, @nil Entry).
    rewrite outcome_run, trace_run, final_run. by rewrite after_nil. }
  simpl app. rewrite !for_of_cons.
  destruct (outcome (body event st)) as [[] | error]; [| by rewrite outcome_run].
  rewrite IH, outcome_after, trace_after, final_after.
  destruct (outcome (for_of rest body (final (body event st)))); [| done].
  by rewrite after_after.
Qed.

(** X17: a batch is processed as the requests of its parts would be, one
    after the other: the Redis handler ends a batch [first ++ second] in
    the state that a request for [first] followed by a request for
    [second] ends in, with the same deliveries for every signature; so
    does the in-memory handler when the request for [first] completes. *)
Theorem batch_splits_into_requests (first second : list Event.t) :
  (∀ st,
     final (webhook_redis (Batch (first ++ second)) st) =
     final (webhook_redis (Batch second) (final (webhook_redis (Batch first) st))) ∧
     ∀ sig,
       deliveries sig (trace (webhook_redis (Batch (first ++ second)) st)) =
       (deliveries sig (trace (webhook_redis (Batch first) st)) +
        deliveries sig (trace (webhook_redis (Batch second)
                                 (final (webhook_redis (Batch first) st)))))%nat) ∧
  (∀ st,
     outcome (webhook_memory (Batch first) st) = Normal tt →
     outcome (webhook_memory (Batch (first ++ second)) st) =
     outcome (webhook_memory (Batch second) (final (webhook_memory (Batch first) st))) ∧
     final (webhook_memory (Batch (first ++ second)) st) =
     final (webhook_memory (Batch second) (final (webhook_memory (Batch first) st))) ∧
     ∀ sig,
       deliveries sig (trace (webhook_memory (Batch (first ++ second)) st)) =
       (deliveries sig (trace (webhook_memory (Batch first) st)) +
        deliveries sig (trace (webhook_memory (Batch second)
                                 (final (webhook_memory (Batch first) st)))))%nat).
Proof.
  split; intros st.
  - rewrite !webhook_redis_run, !final_run, !trace_run. simpl events_of.
    rewrite for_of_app, for_of_redis_normal, final_after, trace_after.
    split; [done |]. intros sig.
    rewrite !deliveries_request, !deliveries_app. simpl. lia.
  - rewrite !webhook_memory_run, !outcome_after, !final_after, !trace_after. simpl events_of.
    intros Hfirst. rewrite for_of_app, Hfirst, outcome_after, final_after, trace_after.
    split; [done |]. split; [done |]. intros sig.
    rewrite !deliveries_app. simpl. lia.
Qed.

(** ** The newest signature and the clean-up *)

(** X18: a signature that the in-memory handler has just added is the
    newest member of the set, so a clean-up that runs next keeps it,
    however large the set has grown. *)
Theorem new_signature_survives_cleanup (event : Event.t) (st : State (list (option string))) :
  NoDup (store st) →
  Event.signature event ∉ store st →
  store (final (memory_event event st)) = store st ++ [Event.signature event] ∧
  Event.signature event ∈ cleanup (store (final (memory_event event st))).
Proof.
  intros Hnd Hnew.
  assert (Hadd : store (final (memory_event event st)) = store st ++ [Event.signature event]).
  { pose proof Hnew as Hno. apply set_has_false in Hno.
    assert (Hset : set_add (Event.signature event) (store st) =
                   store st ++ [Event.signature event]) by (unfold set_add; by rewrite Hno).
    memory_cases event st; try congruence; project; simpl; by rewrite Hset. }
  split; [done |]. rewrite Hadd. apply cleanup_retains_recent.
  - apply NoDup_app. split; [done |]. split; [| apply NoDup_singleton].
    intros x Hx Hx'. apply list_elem_of_singleton in Hx'. by subst.
  - unfold slice_last. rewrite drop_app_le.
    + apply elem_of_app. right. by apply list_elem_of_singleton.
    + rewrite length_app. unfold MAX_CACHE_SIZE. simpl. lia.
Qed.

End Service.


(** * The answers of the chat API *)

Section Answers.

Variable Number_toString : float -> string.
Variable TELEGRAM_BOT_TOKEN : option string.
Variable TELEGRAM_CHAT_ID : option string.
Variable redis_unreachable : nat -> bool.

(** Two ways the chat API may answer the same requests. *)
Variable one_api : nat -> FetchOutcome.
Variable other_api : nat -> FetchOutcome.

Lemma posts_app (t1 t2 : list Entry) : posts (t1 ++ t2) = posts t1 ++ posts t2.
Proof. unfold posts. apply List.filter_app. Qed.

Lemma posts_rescope (sc : Scope) (t : list Entry) :
  posts (rescope sc t) = rescope sc (posts t).
Proof.
  unfold posts, rescope. induction t as [| e t IH]; simpl; [done |].
  destruct (is_delivery e.2); simpl; by rewrite IH.
Qed.

Lemma loop_alike {D} (body1 body2 : Event.t → M D unit) :
  (∀ event st, alike (body1 event st) (body2 event st)) →
  ∀ events st, alike (for_of events body1 st) (for_of events body2 st).
Proof.
  intros Hbody events. induction events as [| event rest IH]; intros st; [done |].
  rewrite !for_of_cons. destruct (Hbody event st) as (Hout & Hfin & Hposts).
  rewrite <- Hout, <- Hfin. destruct (outcome (body1 event st)).
  - destruct (IH (final (body1 event st))) as (IHout & IHfin & IHposts).
    unfold alike. rewrite !outcome_after, !final_after, !trace_after, !posts_app,
      !posts_rescope, Hposts, IHposts. done.
  - unfold alike. rewrite !outcome_run, !final_run, !trace_run, !posts_rescope, Hposts. done.
Qed.

Lemma notify_alike {D} (event : Event.t) (st : State D) (before : list Entry) :
  alike (after before (notify Number_toString TELEGRAM_BOT_TOKEN TELEGRAM_CHAT_ID one_api
                         event st))
        (after before (notify Number_toString TELEGRAM_BOT_TOKEN TELEGRAM_CHAT_ID other_api
                         event st)).
Proof.
  rewrite !notify_run. unfold alike.
  destruct (decodeWebhookEvent event); rewrite !outcome_after, !final_after, !trace_after,
    !outcome_run, !final_run, !trace_run, !posts_app; [| done].
  split; [done |]. split; [done |]. f_equal. unfold posts. simpl.
  by rewrite !(proj1 (send_log_kind _)).
Qed.

Lemma nodedup_event_alike (event : Event.t) (st : State unit) :
  alike (nodedup_event Number_toString TELEGRAM_BOT_TOKEN TELEGRAM_CHAT_ID one_api event st)
        (nodedup_event Number_toString TELEGRAM_BOT_TOKEN TELEGRAM_CHAT_ID other_api event st).
Proof.
  rewrite !nodedup_event_run. destruct (is_withdrawal event); [apply notify_alike | done].
Qed.

Lemma memory_event_alike (event : Event.t) (st : State (list (option string))) :
  alike (memory_event Number_toString TELEGRAM_BOT_TOKEN TELEGRAM_CHAT_ID one_api event st)
        (memory_event Number_toString TELEGRAM_BOT_TOKEN TELEGRAM_CHAT_ID other_api event st).
Proof.
  rewrite !memory_event_run. destruct (set_has _ _); [done |].
  destruct (is_withdrawal event); [apply notify_alike | done].
Qed.

Lemma redis_event_alike (event : Event.t) (st : State (gmap string string)) :
  alike (redis_event Number_toString TELEGRAM_BOT_TOKEN TELEGRAM_CHAT_ID one_api
           redis_unreachable event st)
        (redis_event Number_toString TELEGRAM_BOT_TOKEN TELEGRAM_CHAT_ID other_api
           redis_unreachable event st).
Proof.
  rewrite !redis_event_run. cbv zeta.
  destruct (redis_unreachable (redis_calls st)); [done |].
  destruct (exists_truthy _); [done |].
  destruct (is_withdrawal event); [| done].
  destruct (redis_unreachable (S (redis_calls st))); [done |].
  destruct (decodeWebhookEvent event); [| done].
  unfold alike. rewrite !outcome_run, !final_run, !trace_run.
  split; [done |]. split; [done |]. unfold posts. simpl.
  by rewrite !(proj1 (send_log_kind _)).
Qed.

(** X19: what the chat API answers changes nothing but the notifier's
    console line: against two APIs that answer differently, each handler
    ends a request with the same outcome and the same state, store
    included, and has posted the same messages in the same order; a
    delivery that failed is neither repeated nor taken back. *)
Theorem answers_change_nothing (payload : Payload) :
  (∀ st,
     alike (webhook_nodedup Number_toString TELEGRAM_BOT_TOKEN TELEGRAM_CHAT_ID one_api
              payload st)
           (webhook_nodedup Number_toString TELEGRAM_BOT_TOKEN TELEGRAM_CHAT_ID other_api
              payload st)) ∧
  (∀ st,
     alike (webhook_memory Number_toString TELEGRAM_BOT_TOKEN TELEGRAM_CHAT_ID one_api
              payload st)
           (webhook_memory Number_toString TELEGRAM_BOT_TOKEN TELEGRAM_CHAT_ID other_api
              payload st)) ∧
  (∀ st,
     alike (webhook_redis Number_toString TELEGRAM_BOT_TOKEN TELEGRAM_CHAT_ID one_api
              redis_unreachable payload st)
           (webhook_redis Number_toString TELEGRAM_BOT_TOKEN TELEGRAM_CHAT_ID other_api
              redis_unreachable payload st)).
Proof.
  split; [| split]; intros st.
  - rewrite !webhook_nodedup_run.
    destruct (loop_alike _ _ nodedup_event_alike (events_of payload) st)
      as (Hout & Hfin & Hposts).
    rewrite <- Hout, <- Hfin.
    destruct (outcome (for_of (events_of payload) _ st)); unfold alike;
      rewrite !outcome_run, !final_run, !trace_run;
      change (?a :: ?b :: ?t) with ([a; b] ++ t);
      rewrite ?posts_app, Hposts; done.
  - rewrite !webhook_memory_run.
    destruct (loop_alike _ _ memory_event_alike (events_of payload) st)
      as (Hout & Hfin & Hposts).
    unfold alike. rewrite !outcome_after, !final_after, !trace_after, !posts_app, Hposts. done.
  - rewrite !webhook_redis_run.
    destruct (loop_alike _ _ redis_event_alike (events_of payload) st)
      as (Hout & Hfin & Hposts).
    unfold alike. rewrite !outcome_run, !final_run, !trace_run, Hfin.
    change (?a :: ?t ++ ?u) with ([a] ++ t ++ u).
    rewrite !posts_app, Hposts. done.
Qed.

End Answers.

(** * Concrete runs *)

Lemma cleanup_keeps_most_recent_witness :
  NoDup (numbered_signatures 1001) ∧
  ∃ discarded,
    numbered_signatures 1001 = discarded ++ cleanup (numbered_signatures 1001) ∧
    length (cleanup (numbered_signatures 1001)) = 1000%nat ∧
    (∀ sig, sig ∈ discarded → sig ∉ cleanup (numbered_signatures 1001)).
Proof.
  assert (Hnd : NoDup (numbered_signatures 1001)).
  { apply (bool_decide_unpack (NoDup (numbered_signatures 1001))).
    vm_compute. exact I. }
  split; [exact Hnd |].
  apply (cleanup_keeps_most_recent (numbered_signatures 1001) Hnd).
  apply Nat.ltb_lt. vm_compute. reflexivity.
Defined.

Lemma decoder_reads_first_transfer_witness :
  newDate (Event.timestamp sample_withdrawal) = Some 1700000000000 ∧
  decodeWebhookEvent (with_transfers sample_withdrawal (Some [sample_transfer; other_transfer])) =
  decodeWebhookEvent (with_transfers sample_withdrawal (Some [sample_transfer])).
Proof.
  split; [reflexivity |].
  apply (decoder_reads_first_transfer sample_withdrawal 1700000000000 eq_refl).
Defined.

Lemma decoded_fee_is_quotient_witness :
  ∃ decoded,
    decodeWebhookEvent sample_withdrawal = Normal decoded ∧
    Decoded.fee decoded = 0.005%float.
Proof.
  eexists. split; [reflexivity |].
  apply (decoded_fee_is_quotient sample_withdrawal _ eq_refl). reflexivity.
Defined.

(** The service configured with a bot token and a chat, against a
    Telegram API and a Redis store chosen per run. *)
Local Abbreviation run_memory telegram :=
  (webhook_memory sample_Number_toString (Some "110201543:AAHdqTcvCH") (Some "-1001234") telegram).
Local Abbreviation run_redis telegram redis :=
  (webhook_redis sample_Number_toString (Some "110201543:AAHdqTcvCH") (Some "-1001234")
     telegram redis).
Local Abbreviation step_memory telegram :=
  (memory_event sample_Number_toString (Some "110201543:AAHdqTcvCH") (Some "-1001234") telegram).
Local Abbreviation step_redis telegram redis :=
  (redis_event sample_Number_toString (Some "110201543:AAHdqTcvCH") (Some "-1001234")
     telegram redis).

(** The end-to-end scenario: one delivery that names the token, the
    amount, both accounts and the signature; the same request again
    delivers nothing. *)
Example scenario_memory_first :
  trace (run_memory telegram_accepts (Single sample_withdrawal) (empty_state [])) =
  [ (OfRequest, ConsoleLog "📨 Webhook received from Helius");
    ack;
    (OfEvent (Some "abc123"), ConsoleLog "💸 Withdrawal detected!");
    (OfEvent (Some "abc123"), SetAdd (Some "abc123"));
    (OfEvent (Some "abc123"), CallDecode sample_withdrawal);
    (OfEvent (Some "abc123"),
     CallFormat {| Decoded.signature := Some "abc123";
                   Decoded.timestamp := "2023-11-14T22:13:20.000Z";
                   Decoded.type := "WITHDRAW_SOL";
                   Decoded.source := "Unknown";
                   Decoded.withdrawal :=
                     Some {| Withdrawal.from := Some "A";
                             Withdrawal.to := Some "B";
                             Withdrawal.token := VString "USDC";
                             Withdrawal.amount := Some 10%float;
                             Withdrawal.mint := Some USDC_MINT |};
                   Decoded.fee := 0.005%float |});
    (OfEvent (Some "abc123"),
     Fetch "https://api.telegram.org/bot110201543:AAHdqTcvCH/sendMessage" (Some "-1001234")
       ("🔔 <b>New Withdrawal Detected</b>" +:+ nl +:+ nl +:+
        "<b>Token Transfer:</b>" +:+ nl +:+ nl +:+
        "<b>USDC</b>" +:+ nl +:+
        "Amount: 10" +:+ nl +:+
        "From: <code>A</code>" +:+ nl +:+
        "To: <code>B</code>" +:+ nl +:+ nl +:+
        "🔗 <b>Transaction:</b>" +:+ nl +:+
        "<code>abc123</code>" +:+ nl +:+ nl +:+
        "<a href=" +:+ dquote +:+ "https://solscan.io/tx/abc123" +:+ dquote +:+
        ">View on Solscan</a>"));
    (OfEvent (Some "abc123"), ConsoleLog "✅ Message sent to Telegram successfully") ].
Proof. vm_compute. reflexivity. Qed.

Example scenario_memory_again :
  trace (run_memory telegram_accepts (Single sample_withdrawal)
           (final (run_memory telegram_accepts (Single sample_withdrawal) (empty_state [])))) =
  [ (OfRequest, ConsoleLog "📨 Webhook received from Helius");
    ack;
    (OfEvent (Some "abc123"),
     ConsoleLog "⏭️ Duplicate transaction detected, skipping: abc123...") ].
Proof. vm_compute. reflexivity. Qed.

Example scenario_deposit :
  trace (run_memory telegram_accepts (Single sample_deposit) (empty_state [])) =
  [ (OfRequest, ConsoleLog "📨 Webhook received from Helius");
    ack;
    (OfEvent (Some "def456"), ConsoleLogTime);
    (OfEvent (Some "def456"), ConsoleLog "⏭️ Skipping event type: deposit");
    (OfEvent (Some "def456"), SetAdd (Some "def456")) ] ∧
  store (final (run_memory telegram_accepts (Single sample_deposit) (empty_state []))) =
  [Some "def456"].
Proof. vm_compute. split; reflexivity. Qed.

Lemma known_signature_is_skipped_witness :
  Some "abc123" ∈ [Some "abc123"] ∧
  performs is_delivery
    (trace (step_memory telegram_accepts sample_withdrawal
              (empty_state [Some "abc123"]))) = false ∧
  (deliveries (Some "abc123")
     (trace (run_redis telegram_accepts redis_up (Single sample_withdrawal) (empty_state ∅))) +
   deliveries (Some "abc123")
     (trace (run_redis telegram_accepts redis_up (Single sample_withdrawal)
               (final (run_redis telegram_accepts redis_up (Single sample_withdrawal)
                         (empty_state ∅))))) ≤ 1)%nat.
Proof.
  destruct (known_signature_is_skipped sample_Number_toString (Some "110201543:AAHdqTcvCH")
              (Some "-1001234") telegram_accepts redis_up) as (Hmem & _ & _ & Hredis).
  assert (Hin : Some "abc123" ∈ [Some "abc123"]) by (apply list_elem_of_singleton; reflexivity).
  split; [exact Hin |]. split.
  - apply (Hmem sample_withdrawal (empty_state [Some "abc123"]) Hin).
  - apply Hredis. intros H. exact H.
Defined.

Lemma signature_recorded_before_delivery_witness :
  (1 ≤ deliveries (Some "abc123")
         (trace (run_memory telegram_down (Single sample_withdrawal) (empty_state []))))%nat ∧
  Some "abc123" ∈
    store (final (run_memory telegram_down (Single sample_withdrawal) (empty_state []))) ∧
  deliveries (Some "abc123")
    (trace (run_memory telegram_down (Single sample_withdrawal)
              (final (run_memory telegram_down (Single sample_withdrawal) (empty_state [])))))
  = 0%nat.
Proof.
  destruct (signature_recorded_before_delivery sample_Number_toString
              (Some "110201543:AAHdqTcvCH") (Some "-1001234") telegram_down redis_up)
    as (_ & _ & Hmem & _).
  assert (Hone : (1 ≤ deliveries (Some "abc123")
                        (trace (run_memory telegram_down (Single sample_withdrawal)
                                  (empty_state []))))%nat)
    by (vm_compute; lia).
  split; [exact Hone |].
  apply (Hmem (Some "abc123") (Single sample_withdrawal) (Single sample_withdrawal)
           (empty_state []) _ Hone).
  intros H. exact H.
Defined.

(** C3 as stated fails on the Redis handler: with the store out of reach
    a deposit is not recorded. *)
Lemma unmatched_event_unrecorded_when_redis_is_down :
  includes "withdraw" (toLowerCase (default "" (Event.type sample_deposit))) = false ∧
  includes "withdraw" (toLowerCase (default "" (Event.description sample_deposit))) = false ∧
  ¬ redis_marked
      (store (final (run_redis telegram_accepts redis_down (Single sample_deposit)
                       (empty_state ∅))))
      (Event.signature sample_deposit) ∧
  store (final (run_redis telegram_accepts redis_down (Single sample_deposit) (empty_state ∅)))
  = ∅.
Proof.
  split; [reflexivity |]. split; [reflexivity |]. split.
  - unfold redis_marked. vm_compute. discriminate.
  - vm_compute. reflexivity.
Qed.

Lemma unmatched_event_is_not_delivered_witness :
  performs is_delivery
    (trace (step_redis telegram_accepts redis_up sample_deposit (empty_state ∅))) = false ∧
  redis_marked
    (store (final (step_redis telegram_accepts redis_up sample_deposit (empty_state ∅))))
    (Some "def456") ∧
  Some "def456" ∈
    store (final (step_memory telegram_accepts sample_deposit (empty_state []))).
Proof.
  destruct (unmatched_event_is_not_delivered sample_Number_toString
              (Some "110201543:AAHdqTcvCH") (Some "-1001234") telegram_accepts redis_up
              sample_deposit eq_refl eq_refl) as (_ & Hmem & Hredis).
  destruct (Hredis (empty_state ∅)) as (Hquiet & Hmarked & _).
  split; [exact Hquiet |]. split.
  - apply Hmarked; [reflexivity | right; reflexivity].
  - apply (Hmem (empty_state [])).
Defined.

(** C8 as stated fails: when the lookup does not reach the store, the
    withdrawal is neither decoded nor delivered. *)
Lemma failed_lookup_drops_withdrawal :
  is_withdrawal sample_withdrawal = true ∧
  redis_drops 0 0 = true ∧
  performs is_decode
    (trace (run_redis telegram_accepts (redis_drops 0) (Single sample_withdrawal)
              (empty_state ∅))) = false ∧
  performs is_format
    (trace (run_redis telegram_accepts (redis_drops 0) (Single sample_withdrawal)
              (empty_state ∅))) = false ∧
  performs is_delivery
    (trace (run_redis telegram_accepts (redis_drops 0) (Single sample_withdrawal)
              (empty_state ∅))) = false ∧
  trace (run_redis telegram_accepts (redis_drops 0) (Single sample_withdrawal) (empty_state ∅)) =
  [ (OfRequest, ConsoleLog "📨 Webhook received from Helius");
    (OfEvent (Some "abc123"), RedisGet "tx:abc123");
    (OfEvent (Some "abc123"), ConsoleError failure_line);
    ack ].
Proof. vm_compute. repeat split; reflexivity. Qed.

Lemma redis_failure_gives_up_event_witness :
  redis_drops 0 0 = true ∧
  performs is_delivery
    (trace (step_redis telegram_accepts (redis_drops 0) sample_withdrawal (empty_state ∅)))
  = false ∧
  for_of [sample_withdrawal; sample_deposit] (step_redis telegram_accepts (redis_drops 0))
    (empty_state ∅) =
  after (rescope (OfEvent (Some "abc123"))
           (trace (step_redis telegram_accepts (redis_drops 0) sample_withdrawal
                     (empty_state ∅))))
        (for_of [sample_deposit] (step_redis telegram_accepts (redis_drops 0))
           (final (step_redis telegram_accepts (redis_drops 0) sample_withdrawal
                     (empty_state ∅)))).
Proof.
  destruct (redis_failure_gives_up_event sample_Number_toString
              (Some "110201543:AAHdqTcvCH") (Some "-1001234") telegram_accepts (redis_drops 0)
              sample_withdrawal (empty_state ∅) (or_introl eq_refl))
    as (_ & _ & _ & _ & Hquiet & _ & Hrest).
  split; [reflexivity |]. split; [exact Hquiet | apply Hrest].
Defined.

Lemma notifier_never_throws_witness :
  telegram_down 0 = Rejects (NetworkError "request to https://api.telegram.org failed") ∧
  outcome (sendTelegramMessage (Some "110201543:AAHdqTcvCH") (Some "-1001234") telegram_down
             "hello" (empty_state tt)) = Normal None.
Proof.
  destruct (notifier_never_throws sample_Number_toString (Some "110201543:AAHdqTcvCH")
              (Some "-1001234") telegram_down redis_up) as (Hsend & _).
  destruct (Hsend unit "hello" (empty_state tt)) as (result & Hrun & Hfail & _).
  split; [reflexivity |].
  rewrite Hrun. destruct (Hfail _ eq_refl) as [-> _]. reflexivity.
Defined.

(** ** Runs for the further properties *)

Local Abbreviation run_nodedup telegram :=
  (webhook_nodedup sample_Number_toString (Some "110201543:AAHdqTcvCH") (Some "-1001234")
     telegram).

Lemma withdrawal_filter_is_case_blind_witness : is_withdrawal sample_withdrawal = true.
Proof.
  destruct (withdrawal_filter_is_case_blind sample_withdrawal) as [_ H].
  apply (H "" "WITHDRAW" "_SOL"); [reflexivity | left; reflexivity].
Defined.

Lemma decoded_timestamp_whole_second_witness :
  ∃ date,
    "2023-11-14T22:13:20.000Z" =
    date +:+ "T" +:+ pad2 ((1700000000 / 3600) mod 24) +:+ ":" +:+
    pad2 ((1700000000 / 60) mod 60) +:+ ":" +:+ pad2 (1700000000 mod 60) +:+ ".000Z".
Proof.
  destruct (decoded_timestamp_whole_second sample_withdrawal _ 1700000000 eq_refl eq_refl)
    as [date H].
  exists date. exact H.
Defined.

Lemma nodedup_delivers_every_match_witness :
  outcome (run_nodedup telegram_accepts (Batch [sample_withdrawal; sample_withdrawal])
             (empty_state tt)) = Normal tt ∧
  deliveries (Some "abc123")
    (trace (run_nodedup telegram_accepts (Batch [sample_withdrawal; sample_withdrawal])
              (empty_state tt))) = 2%nat.
Proof.
  destruct (nodedup_delivers_every_match sample_Number_toString (Some "110201543:AAHdqTcvCH")
              (Some "-1001234") telegram_accepts
              (Batch [sample_withdrawal; sample_withdrawal]) (empty_state tt))
    as [Hout Hdel].
  { intros event Hin _. simpl in Hin.
    apply elem_of_cons in Hin as [-> | Hin]; [by eexists |].
    apply elem_of_cons in Hin as [-> | Hin]; [by eexists |].
    by apply elem_of_nil in Hin. }
  split; [exact Hout |]. rewrite Hdel. reflexivity.
Defined.

Lemma memory_delivers_new_signatures_witness :
  NoDup (map Event.signature [sample_withdrawal; sample_deposit]) ∧
  store (final (run_memory telegram_down (Batch [sample_withdrawal; sample_deposit])
                  (empty_state []))) = [Some "abc123"; Some "def456"] ∧
  deliveries (Some "abc123")
    (trace (run_memory telegram_down (Batch [sample_withdrawal; sample_deposit])
              (empty_state []))) = 1%nat.
Proof.
  assert (Hnd : NoDup (map Event.signature [sample_withdrawal; sample_deposit])).
  { apply (bool_decide_unpack _). vm_compute. exact I. }
  destruct (memory_delivers_new_signatures sample_Number_toString
              (Some "110201543:AAHdqTcvCH") (Some "-1001234") telegram_down
              (Batch [sample_withdrawal; sample_deposit]) (empty_state []) Hnd)
    as (_ & Hstore & Hin & _).
  { intros event _ H. by apply elem_of_nil in H. }
  { intros event Hin _. simpl in Hin.
    apply elem_of_cons in Hin as [-> | Hin]; [by eexists |].
    apply elem_of_cons in Hin as [-> | Hin]; [by eexists |].
    by apply elem_of_nil in Hin. }
  split; [exact Hnd |]. split; [exact Hstore |].
  apply (Hin sample_withdrawal). simpl. left.
Defined.

Lemma redis_delivers_new_signatures_witness :
  deliveries (Some "abc123")
    (trace (run_redis telegram_refuses redis_up (Batch [sample_withdrawal; sample_deposit])
              (empty_state ∅))) = 1%nat ∧
  redis_marked
    (store (final (run_redis telegram_refuses redis_up
                     (Batch [sample_withdrawal; sample_deposit]) (empty_state ∅))))
    (Some "def456").
Proof.
  destruct (redis_delivers_new_signatures sample_Number_toString
              (Some "110201543:AAHdqTcvCH") (Some "-1001234") telegram_refuses redis_up
              (Batch [sample_withdrawal; sample_deposit]) (empty_state ∅))
    as (Hin & _).
  { intros n. reflexivity. }
  { apply (bool_decide_unpack _). vm_compute. exact I. }
  { intros event _. unfold redis_marked. simpl. rewrite lookup_empty. discriminate. }
  { intros event Hin _. simpl in Hin.
    apply elem_of_cons in Hin as [-> | Hin]; [by eexists |].
    apply elem_of_cons in Hin as [-> | Hin]; [by eexists |].
    by apply elem_of_nil in Hin. }
  split.
  - apply (Hin sample_withdrawal). simpl. left.
  - apply (Hin sample_deposit). simpl. right. left.
Defined.

Lemma memory_undecodable_is_recorded_witness :
  outcome (run_memory telegram_accepts (Batch [undatable_withdrawal; sample_withdrawal])
             (empty_state [])) = Throw (RangeError "Invalid time value") ∧
  store (final (run_memory telegram_accepts (Batch [undatable_withdrawal; sample_withdrawal])
                  (empty_state []))) = [Some "ghi789"].
Proof.
  destruct (memory_undecodable_is_recorded sample_Number_toString
              (Some "110201543:AAHdqTcvCH") (Some "-1001234") telegram_accepts
              undatable_withdrawal [sample_withdrawal] (RangeError "Invalid time value")
              (empty_state [])) as [Hrun _].
  { intros H. by apply elem_of_nil in H. }
  { reflexivity. }
  { reflexivity. }
  rewrite Hrun. split; reflexivity.
Defined.

Lemma redis_undecodable_is_marked_witness :
  redis_marked
    (store (final (for_of [undatable_withdrawal]
                     (step_redis telegram_accepts redis_up) (empty_state ∅))))
    (Some "ghi789") ∧
  attempts
    (trace (for_of [undatable_withdrawal]
              (step_redis telegram_accepts redis_up) (empty_state ∅))) = 0%nat.
Proof.
  destruct (redis_undecodable_is_marked sample_Number_toString
              (Some "110201543:AAHdqTcvCH") (Some "-1001234") telegram_accepts redis_up
              undatable_withdrawal [] (RangeError "Invalid time value") (empty_state ∅))
    as [Hrun _].
  { reflexivity. }
  { reflexivity. }
  { unfold redis_marked. simpl. rewrite lookup_empty. discriminate. }
  { reflexivity. }
  { reflexivity. }
  rewrite Hrun. split; [| reflexivity].
  unfold redis_marked. vm_compute. reflexivity.
Defined.

Lemma unsigned_duplicate_stops_memory_batch_witness :
  outcome (run_memory telegram_accepts (Batch [unsigned_deposit; sample_withdrawal])
             (empty_state [None])) =
  Throw (TypeError "Cannot read properties of undefined (reading 'slice')") ∧
  attempts (trace (run_memory telegram_accepts (Batch [unsigned_deposit; sample_withdrawal])
                     (empty_state [None]))) = 0%nat.
Proof.
  destruct (unsigned_duplicate_stops_memory_batch sample_Number_toString
              (Some "110201543:AAHdqTcvCH") (Some "-1001234") telegram_accepts redis_up
              unsigned_deposit [sample_withdrawal] eq_refl) as [Hmem _].
  rewrite (Hmem (empty_state [None])); [split; reflexivity |].
  apply list_elem_of_singleton. reflexivity.
Defined.

Lemma new_signature_survives_cleanup_witness :
  Some "abc123" ∈
    cleanup (store (final (step_memory telegram_accepts sample_withdrawal (empty_state [])))).
Proof.
  apply (new_signature_survives_cleanup sample_Number_toString (Some "110201543:AAHdqTcvCH")
           (Some "-1001234") telegram_accepts sample_withdrawal (empty_state [])).
  - apply NoDup_nil_2.
  - intros H. by apply elem_of_nil in H.
Defined.
